(** * Million Pixel Frame (src/index.js)

    A shallow embedding of the tile allocation engine, the snapshot
    persistence and the image compositor of [index.js], followed by the
    properties of the specification that were checked against it.

    Conventions.
    - JavaScript numbers that are loop counters, coordinates and buffer
      offsets are integers here ([Z]).
    - The owner identity [fid] is a string, as in the specification; the
      program uses whatever it is sent as a property name of [userPixels],
      that is, through its string form.
    - A handler is a computation over the module state ([grid],
      [userPixels]), the snapshot files and a trace of the effects it makes;
      it ends by returning, by throwing, or by running out of loop fuel.  An
      exception keeps the writes made before it, as in JavaScript.
    - Library calls whose result the source does not determine (the Farcaster
      hub, [Math.sin], Jimp's colour packing, blending, text and PNG
      encoding, Node's [Buffer]) are the fields of the class [Lib]. *)

From Stdlib Require Import ZArith Lia PrimFloat Uint63.
From stdpp Require Import base numbers option list gmap strings pretty.

Local Open Scope string_scope.
Local Open Scope list_scope.
Local Open Scope Z_scope.

(** ** Outcomes of a computation *)

(** The exceptions that can reach the handlers.  [SystemError code] is the
    error of a failed [fs] call; only those carry a [code]. *)
Inductive exn :=
  | TypeError
  | SyntaxError
  | RangeError
  | SystemError (code : string).

(** [error.code] *)
Definition error_code (error : exn) : option string :=
  match error with
  | SystemError code => Some code
  | _ => None
  end.

Inductive res (A : Type) :=
  | Ret (a : A)
  | Throw (e : exn)
  | OutOfFuel.
Arguments Ret {A} a.
Arguments Throw {A} e.
Arguments OutOfFuel {A}.

(** The outcome of a library call: it returns or it throws. *)
Inductive outcome (A : Type) :=
  | Returns (a : A)
  | Throws (e : exn).
Arguments Returns {A} a.
Arguments Throws {A} e.

Definition call {A} (o : outcome A) : res A :=
  match o with
  | Returns a => Ret a
  | Throws e => Throw e
  end.

(** ** The grid (index.js, lines 18-22) *)

Definition GRID_SIZE : Z := 1000.
Definition TOKEN_SIZE : Z := 10.

(** An element of a row: [null], an [undefined] element (a hole of the
    array, or a read past its end), or the object [{ fid }]. *)
Inductive cell :=
  | Null
  | Hole
  | Obj (fid : string).

(** [!c] is [false] exactly for an object. *)
Definition truthy (c : cell) : bool :=
  match c with
  | Obj _ => true
  | _ => false
  end.

(** The object [{ x, y }]. *)
Record pos := Pos { pos_x : Z; pos_y : Z }.

Abbreviation Grid := (list (list cell)).

(** [Array(GRID_SIZE).fill().map(() => Array(GRID_SIZE).fill(null))] *)
Definition fresh_grid : Grid :=
  replicate (Z.to_nat GRID_SIZE) (replicate (Z.to_nat GRID_SIZE) Null).

(** [a[i]] for an index that is an integer: [None] is [undefined]. *)
Definition arr_get {A} (a : list A) (i : Z) : option A :=
  if bool_decide (0 ≤ i) then a !! Z.to_nat i else None.

(** [row[i]] read as a cell. *)
Definition elem (row : list cell) (i : Z) : cell :=
  default Hole (arr_get row i).

(** [row[i] = v]: an index past the end grows the array and leaves holes.
    (A negative index would add a property and no element; the loops below
    count up from 0.) *)
Definition arr_set (row : list cell) (i : Z) (v : cell) : list cell :=
  if bool_decide (i < 0) then row
  else if bool_decide (Z.to_nat i < length row)%nat then <[Z.to_nat i := v]> row
  else row ++ replicate (Z.to_nat i - length row) Hole ++ [v].

(** [grid[y][x]], where reading a row that does not exist throws. *)
Definition grid_get (grid : Grid) (y x : Z) : res cell :=
  match arr_get grid y with
  | Some row => Ret (elem row x)
  | None => Throw TypeError
  end.

(** [grid[y][x] = v] on a row that exists. *)
Definition grid_set (grid : Grid) (y x : Z) (v : cell) : Grid :=
  match arr_get grid y with
  | Some row => <[Z.to_nat y := arr_set row x v]> grid
  | None => grid
  end.

(** Iterations granted to each [for] loop; every loop of the program makes
    at most [GRID_SIZE / TOKEN_SIZE] of them. *)
Definition LOOP_FUEL : nat := Z.to_nat GRID_SIZE.

(** ** The claim scan (lines 181-193)

    The inner loop, from column [x] of row [y]: the first falsy cell is
    overwritten with [{ fid }] and the scan stops ([claimed = true; break]). *)
Fixpoint scan_row (fuel : nat) (fid : string) (grid : Grid) (y x : Z)
    : res (option (pos * Grid)) :=
  match fuel with
  | O => OutOfFuel
  | S fuel =>
      if bool_decide (x < GRID_SIZE) then
        match grid_get grid y x with
        | Ret c =>
            if truthy c then scan_row fuel fid grid y (x + TOKEN_SIZE)
            else Ret (Some (Pos x y, grid_set grid y x (Obj fid)))
        | Throw e => Throw e
        | OutOfFuel => OutOfFuel
        end
      else Ret None
  end.

(** The outer loop, from row [y]; it goes on while [!claimed]. *)
Fixpoint scan_rows (fuel : nat) (fid : string) (grid : Grid) (y : Z)
    : res (option (pos * Grid)) :=
  match fuel with
  | O => OutOfFuel
  | S fuel =>
      if bool_decide (y < GRID_SIZE) then
        match scan_row LOOP_FUEL fid grid y 0 with
        | Ret None => scan_rows fuel fid grid (y + TOKEN_SIZE)
        | r => r
        end
      else Ret None
  end.

Definition scan (fid : string) (grid : Grid) : res (option (pos * Grid)) :=
  scan_rows LOOP_FUEL fid grid 0.

(** ** The claim index (line 23, lines 195-199) *)

(** [userPixels] is an object literal: its own properties are the map, and
    a name that is not an own property is looked up in [Object.prototype]. *)
Definition Object_prototype_keys : list string :=
  [ "constructor"; "__proto__"; "hasOwnProperty"; "isPrototypeOf";
    "propertyIsEnumerable"; "toLocaleString"; "toString"; "valueOf";
    "__defineGetter__"; "__defineSetter__"; "__lookupGetter__";
    "__lookupSetter__" ].

(** What [userPixels[fid]] evaluates to: an own array, a member inherited
    from the prototype (a function or the prototype object: truthy, and
    without a [push]), or [undefined]. *)
Inductive property :=
  | Own (pixels : list pos)
  | Inherited
  | Undefined.

Definition get_property (userPixels : gmap string (list pos)) (fid : string)
    : property :=
  match userPixels !! fid with
  | Some pixels => Own pixels
  | None =>
      if bool_decide (fid ∈ Object_prototype_keys) then Inherited
      else Undefined
  end.

(** ** The snapshot files (lines 25-41) *)

(** The text of a file: the JSON text of a value, written as the value that
    [JSON.parse] reads back from it, or text that is not JSON. *)
Inductive text (A : Type) :=
  | Json (doc : A)
  | NotJson.
Arguments Json {A} doc.
Arguments NotJson {A}.

(** A file, with the error code that reading or writing it raises, if any.
    A file that does not exist has no content. *)
Record file (A : Type) := File {
  content : option (text A);
  read_error : option string;
  write_error : option string
}.
Arguments File {A} content read_error write_error.
Arguments content {A} f.
Arguments read_error {A} f.
Arguments write_error {A} f.

Record Disk := MkDisk {
  grid_json : file Grid;
  user_pixels_json : file (gmap string (list pos))
}.

(** [fs.readFile(f, 'utf8')] *)
Definition fs_readFile {A} (f : file A) : res (text A) :=
  match read_error f with
  | Some code => Throw (SystemError code)
  | None =>
      match content f with
      | Some t => Ret t
      | None => Throw (SystemError "ENOENT")
      end
  end.

(** [fs.writeFile(f, t)] *)
Definition fs_writeFile {A} (f : file A) (t : text A) : res (file A) :=
  match write_error f with
  | Some code => Throw (SystemError code)
  | None => Ret (File (Some t) (read_error f) (write_error f))
  end.

(** [JSON.parse] *)
Definition JSON_parse {A} (t : text A) : res A :=
  match t with
  | Json doc => Ret doc
  | NotJson => Throw SyntaxError
  end.

(** [JSON.stringify(grid)]: [undefined] elements are written as [null]. *)
Definition JSON_stringify_grid (grid : Grid) : text Grid :=
  Json (map (map (λ c, match c with Hole => Null | _ => c end)) grid).

(** [JSON.stringify(userPixels)]: the own properties, arrays of [{x, y}]. *)
Definition JSON_stringify_userPixels (userPixels : gmap string (list pos))
    : text (gmap string (list pos)) :=
  Json userPixels.

(** ** The process state and its computations *)

Inductive event :=
  | ReadFile (name : string)
  | WriteFile (name : string)
  | ConsoleError (error : exn)
  | Listen.

Record World := MkWorld {
  grid : Grid;
  userPixels : gmap string (list pos);
  disk : Disk;
  trace : list event
}.

Definition M (A : Type) : Type := World → res A * World.

Definition ret {A} (a : A) : M A := λ w, (Ret a, w).

Definition throw {A} (e : exn) : M A := λ w, (Throw e, w).

Definition bind {A B} (m : M A) (k : A → M B) : M B := λ w,
  match m w with
  | (Ret a, w') => k a w'
  | (Throw e, w') => (Throw e, w')
  | (OutOfFuel, w') => (OutOfFuel, w')
  end.

(** [try { m } catch (error) { handler }] *)
Definition try_catch {A} (m : M A) (handler : exn → M A) : M A := λ w,
  match m w with
  | (Throw e, w') => handler e w'
  | r => r
  end.

Notation "'let*' x := m 'in' k" := (bind m (λ x, k))
  (at level 10, x name, m at level 100, k at level 200).
Notation "m ;;; k" := (bind m (λ _, k))
  (at level 100, k at level 200, right associativity).

Definition emit (ev : event) : M unit := λ w,
  (Ret (), MkWorld (grid w) (userPixels w) (disk w) (trace w ++ [ev])).

Definition set_grid (g : Grid) : M unit := λ w,
  (Ret (), MkWorld g (userPixels w) (disk w) (trace w)).

Definition set_userPixels (u : gmap string (list pos)) : M unit := λ w,
  (Ret (), MkWorld (grid w) u (disk w) (trace w)).

Definition set_disk (d : Disk) : M unit := λ w,
  (Ret (), MkWorld (grid w) (userPixels w) d (trace w)).

Definition lift {A} (r : res A) : M A := λ w, (r, w).

(** [await fs.readFile('grid.json', 'utf8')] *)
Definition read_grid_json : M (text Grid) := λ w,
  bind (emit (ReadFile "grid.json"))
       (λ _, lift (fs_readFile (grid_json (disk w)))) w.

(** [await fs.readFile('user_pixels.json', 'utf8')] *)
Definition read_user_pixels_json : M (text (gmap string (list pos))) := λ w,
  bind (emit (ReadFile "user_pixels.json"))
       (λ _, lift (fs_readFile (user_pixels_json (disk w)))) w.

(** [await fs.writeFile('grid.json', t)] *)
Definition write_grid_json (t : text Grid) : M unit := λ w,
  (let* _ := emit (WriteFile "grid.json") in
   let* f := lift (fs_writeFile (grid_json (disk w)) t) in
   set_disk (MkDisk f (user_pixels_json (disk w)))) w.

(** [await fs.writeFile('user_pixels.json', t)] *)
Definition write_user_pixels_json (t : text (gmap string (list pos)))
    : M unit := λ w,
  (let* _ := emit (WriteFile "user_pixels.json") in
   let* f := lift (fs_writeFile (user_pixels_json (disk w)) t) in
   set_disk (MkDisk (grid_json (disk w)) f)) w.

(** [loadData] (lines 25-36): any exception of the body is caught; it is
    logged unless its code is [ENOENT]. *)
Definition loadData : M unit :=
  try_catch
    (let* gridData := read_grid_json in
     let* g := lift (JSON_parse gridData) in
     set_grid g ;;;
     let* userData := read_user_pixels_json in
     let* u := lift (JSON_parse userData) in
     set_userPixels u)
    (λ error,
       if bool_decide (error_code error ≠ Some "ENOENT")
       then emit (ConsoleError error)
       else ret ()).

(** [saveData] (lines 38-41) *)
Definition saveData : M unit := λ w,
  (write_grid_json (JSON_stringify_grid (grid w)) ;;;
   λ w', write_user_pixels_json (JSON_stringify_userPixels (userPixels w')) w') w.

(** The module at load time (lines 22-23) and the start of the process
    (lines 218-222): [loadData().then(() => app.listen(...))]. *)
Definition initial_world (d : Disk) : World :=
  MkWorld fresh_grid ∅ d [].

Definition startup : M unit :=
  loadData ;;; emit Listen.

(** ** The claim of POST /api/frame (lines 179-201) *)

(** Lines 181-193: the scan, with its write to [grid]. *)
Definition scan_grid (fid : string) : M (option pos) := λ w,
  match scan fid (grid w) with
  | Ret (Some (claimedPosition, g)) =>
      (Ret (Some claimedPosition),
       MkWorld g (userPixels w) (disk w) (trace w))
  | Ret None => (Ret None, w)
  | Throw e => (Throw e, w)
  | OutOfFuel => (OutOfFuel, w)
  end.

(** Lines 196-199:
    [if (!userPixels[fid]) userPixels[fid] = [];
     userPixels[fid].push(claimedPosition);] *)
Definition push_userPixels (fid : string) (claimedPosition : pos) : M unit :=
  (λ w,
     match get_property (userPixels w) fid with
     | Undefined => set_userPixels (<[fid := []]> (userPixels w)) w
     | _ => ret () w
     end) ;;;
  λ w,
    match get_property (userPixels w) fid with
    | Own pixels =>
        set_userPixels (<[fid := pixels ++ [claimedPosition]]> (userPixels w)) w
    | _ => throw TypeError w
    end.

(** Lines 181-201: the result is [claimedPosition] ([None] is [null], with
    [claimed] false). *)
Definition claim (fid : string) : M (option pos) :=
  let* claimedPosition := scan_grid fid in
  match claimedPosition with
  | Some p => push_userPixels fid p ;;; saveData ;;; ret (Some p)
  | None => ret None
  end.

(** A sequence of claims, one after the other, with the outcome of each.
    A request that throws leaves the state it reached to the next one. *)
Fixpoint run (fids : list string) (w : World)
    : list (res (option pos)) * World :=
  match fids with
  | [] => ([], w)
  | fid :: fids =>
      let '(r, w1) := claim fid w in
      let '(rs, w2) := run fids w1 in
      (r :: rs, w2)
  end.

(** ** The compositor (lines 43-89) *)

#[local] Set Warnings "-inexact-float".

#[global] Instance res_ret : MRet res := λ A a, Ret a.
#[global] Instance res_bind : MBind res := λ A B k r,
  match r with
  | Ret a => k a
  | Throw e => Throw e
  | OutOfFuel => OutOfFuel
  end.

(** A Jimp image: [bitmap.width], [bitmap.height], [bitmap.data]. *)
Record image (B : Type) := Image {
  bitmap_width : Z;
  bitmap_height : Z;
  bitmap_data : B
}.
Arguments Image {B} bitmap_width bitmap_height bitmap_data.
Arguments bitmap_width {B} i.
Arguments bitmap_height {B} i.
Arguments bitmap_data {B} i.

(** The library calls of the program: what each returns is not in
    [index.js]. *)
Class Lib := {
  (** [Math.sin] on doubles; ECMAScript fixes its value at [+0] *)
  Math_sin : float → float;
  Math_sin_0 : Math_sin 0 = 0%float;
  (** [Jimp.rgbaToInt(r, g, b, a)], called with channels within 0..255 *)
  Jimp_rgbaToInt : float → float → float → float → Z;
  (** [Jimp.blend(base, over)] *)
  Jimp_blend : Z → Z → outcome Z;
  (** a Node [Buffer] of pixels *)
  buffer : Type;
  (** the bitmap of [new Jimp(width, height, color)] *)
  Jimp_bitmap : Z → Z → Z → buffer;
  (** [data.writeUInt32BE(value, offset)] *)
  writeUInt32BE : buffer → Z → Z → outcome buffer;
  (** [data.readUInt32BE(offset)] *)
  readUInt32BE : buffer → Z → outcome Z;
  (** [Jimp.loadFont(Jimp.FONT_SANS_16_BLACK)], then
      [image.print(font, x, y, text)] *)
  Jimp_print : image buffer → Z → Z → string → outcome (image buffer);
  (** [image.getBufferAsync(Jimp.MIME_PNG)], and [toString('base64')] of
      the result *)
  Jimp_getBuffer : image buffer → outcome (list Z);
  Buffer_toString_base64 : list Z → string;
  (** the hub's [validateMessage] on [trustedData.messageBytes]:
      [result.isOk() && result.value.valid], or an exception *)
  hub_validateMessage : string → outcome bool
}.

(** An integer as a double (exact: the counters are below 2^53). *)
Definition number (z : Z) : float :=
  if (z <? 0)%Z then (- PrimFloat.of_uint63 (Uint63.of_Z (- z)))%float
  else PrimFloat.of_uint63 (Uint63.of_Z z).

(** [generatePixelColor] (lines 43-53) *)
Definition generatePixelColor `{Lib} (x y : Z) (claimed : bool) : Z :=
  if claimed then
    let r := (Math_sin (0.3 * number x) * 127 + 128)%float in
    let g := (Math_sin (0.3 * number y) * 127 + 128)%float in
    let b := (Math_sin (0.3 * number (x + y)) * 127 + 128)%float in
    Jimp_rgbaToInt r g b 255%float
  else
    let value := (Math_sin (0.1 * number (x + y)) * 30 + 225)%float in
    Jimp_rgbaToInt value value value 255%float.

(** An argument of [generateImage]: [null], [undefined] or a number. *)
Inductive jsarg :=
  | JNull
  | JUndefined
  | JNumber (n : Z).

(** [v !== null] *)
Definition not_null (v : jsarg) : bool :=
  match v with
  | JNull => false
  | _ => true
  end.

(** [claimedPosition?.x] and [claimedPosition?.y]: [undefined] for [null]. *)
Definition opt_x (claimedPosition : option pos) : jsarg :=
  match claimedPosition with
  | Some p => JNumber (pos_x p)
  | None => JUndefined
  end.

Definition opt_y (claimedPosition : option pos) : jsarg :=
  match claimedPosition with
  | Some p => JNumber (pos_y p)
  | None => JUndefined
  end.

(** An integer or [NaN]. *)
Inductive num :=
  | NaN
  | Num (n : Z).

Definition WIDTH : Z := 1200.
Definition HEIGHT : Z := 630.

(** [Math.floor(v * scaleFactor)] with [scaleFactor = width / GRID_SIZE]:
    the floor of the exact product ([null] counts as 0, [undefined] gives
    [NaN]). *)
Definition scale (v : jsarg) : num :=
  match v with
  | JNumber n => Num (n * WIDTH / GRID_SIZE)
  | JNull => Num 0
  | JUndefined => NaN
  end.

(** [Math.floor(TOKEN_SIZE * scaleFactor)] *)
Definition scaledTokenSize : Z := TOKEN_SIZE * WIDTH / GRID_SIZE.

(** [v << 2] on a 32-bit integer. *)
Definition shl2 (v : Z) : Z :=
  (Z.shiftl v 2 + 2 ^ 31) mod 2 ^ 32 - 2 ^ 31.

(** The pixels [(_x, _y, idx)] that Jimp's [scanQuiet(x, y, w, h, f)] visits,
    in order:
    [for (_y = y; _y < y + h; _y++) for (_x = x; _x < x + w; _x++)
       f(_x, _y, (bitmap.width * _y + _x) << 2)].
    A comparison with [NaN] is false, so no pixel is visited then. *)
Definition scan_pixels (width : Z) (x y : num) (w h : Z) : list (Z * Z * Z) :=
  match x, y with
  | Num x, Num y =>
      _y ← seqZ y h; _x ← seqZ x w; [(_x, _y, shl2 (width * _y + _x))]
  | _, _ => []
  end.

Fixpoint fold_res {A B} (f : A → B → res A) (a : A) (l : list B) : res A :=
  match l with
  | [] => Ret a
  | b :: l => a ← f a b; fold_res f a l
  end.

(** [image.scanQuiet(x, y, w, h, f)] where [f] works on [bitmap.data] *)
Definition scanQuiet `{Lib} (img : image buffer) (x y : num) (w h : Z)
    (f : buffer → Z → Z → Z → res buffer) : res (image buffer) :=
  data ← fold_res (λ data '(_x, _y, idx), f data _x _y idx) (bitmap_data img)
            (scan_pixels (bitmap_width img) x y w h);
  mret (Image (bitmap_width img) (bitmap_height img) data).

(** [for (let i = start; i < stop; i += step) body] *)
Fixpoint for_loop {S} (fuel : nat) (i stop step : Z) (body : Z → S → res S)
    (s : S) : res S :=
  match fuel with
  | O => OutOfFuel
  | S fuel =>
      if bool_decide (i < stop) then
        s ← body i s; for_loop fuel (i + step) stop step body s
      else Ret s
  end.

(** Lines 63-72: every tile is filled with its colour. *)
Definition paint_tiles `{Lib} (grid : Grid) (img : image buffer)
    : res (image buffer) :=
  for_loop LOOP_FUEL 0 GRID_SIZE TOKEN_SIZE (λ y img,
    for_loop LOOP_FUEL 0 GRID_SIZE TOKEN_SIZE (λ x img,
      c ← grid_get grid y x;
      let color :=
        generatePixelColor x y (if c is Null then false else true) in
      scanQuiet img (scale (JNumber x)) (scale (JNumber y))
        scaledTokenSize scaledTokenSize
        (λ data _ _ idx, call (writeUInt32BE data color idx))) img) img.

(** The callback of lines 78-82. *)
Definition blend_pixel `{Lib} (highlightColor : Z) (data : buffer)
    (_x _y idx : Z) : res buffer :=
  baseColor ← call (readUInt32BE data idx);
  blendedColor ← call (Jimp_blend baseColor highlightColor);
  call (writeUInt32BE data blendedColor idx).

(** Lines 74-83: the highlight. *)
Definition highlight `{Lib} (newPixelX newPixelY : jsarg) (img : image buffer)
    : res (image buffer) :=
  if not_null newPixelX && not_null newPixelY then
    let highlightColor := Jimp_rgbaToInt 255 255 0 128 in
    scanQuiet img (scale newPixelX) (scale newPixelY)
      scaledTokenSize scaledTokenSize (blend_pixel highlightColor)
  else Ret img.

(** [generateImage] (lines 55-89), reading [grid]. *)
Definition generateImage `{Lib} (grid : Grid) (newPixelX newPixelY : jsarg)
    : res (list Z) :=
  let img := Image WIDTH HEIGHT (Jimp_bitmap WIDTH HEIGHT 0xFFFFFFFF) in
  img ← paint_tiles grid img;
  img ← highlight newPixelX newPixelY img;
  img ← call (Jimp_print img 10 10 "Million Pixel Frame");
  call (Jimp_getBuffer img).

(** ** The handlers (lines 91-101, 161-216) *)

(** [verifyFarcasterMessage] (lines 91-101): an exception of the body is
    logged and counts as invalid. *)
Definition verifyFarcasterMessage `{Lib} (messageBytes : string) : M bool :=
  try_catch
    (lift (call (hub_validateMessage messageBytes)))
    (λ error, emit (ConsoleError error) ;;; ret false).

Inductive body :=
  | ErrorJson (error : string)
  | FrameJson (image_url : string) (button_label : string) (message : string)
  | Png (bytes : list Z)
  | Plain (message : string).

Record response := Response { status : Z; sent : body }.

(** The JSON of lines 205-215. *)
Definition frame_json (claimedPosition : option pos) (image_url : string)
    : body :=
  FrameJson image_url
    (if claimedPosition is Some _ then "Pixel Claimed!" else "Claim Pixel")
    (match claimedPosition with
     | Some p =>
         "You claimed a pixel at (" +:+ pretty (pos_x p) +:+ ", "
           +:+ pretty (pos_y p)
           +:+ ")! Check the dashboard to see all your pixels."
     | None => "Sorry, no pixels available. Try again later!"
     end).

(** POST /api/frame (lines 172-216) *)
Definition post_api_frame `{Lib} (messageBytes fid : string) : M response :=
  let* valid := verifyFarcasterMessage messageBytes in
  if negb valid then
    ret (Response 400 (ErrorJson "Invalid Farcaster signature"))
  else
    let* claimedPosition := claim fid in
    let* png := (λ w, lift (generateImage (grid w) (opt_x claimedPosition)
                              (opt_y claimedPosition)) w) in
    ret (Response 200
           (frame_json claimedPosition
              ("data:image/png;base64," +:+ Buffer_toString_base64 png))).

(** GET /frame-image (lines 161-170) *)
Definition get_frame_image `{Lib} : M response :=
  try_catch
    (let* png := (λ w, lift (generateImage (grid w) JNull JNull) w) in
     ret (Response 200 (Png png)))
    (λ error,
       emit (ConsoleError error) ;;;
       ret (Response 500 (Plain "Error generating image"))).

(** GET /api/user-pixels (lines 155-159): [userPixels[fid] || []]. *)
Definition get_user_pixels (fid : string) (w : World) : property :=
  match get_property (userPixels w) fid with
  | Undefined => Own []
  | pixels => pixels
  end.

(** ** Vocabulary of the properties *)

(** The coordinate the specification gives for the Nth successful claim:
    [(N * TOKEN_SIZE mod GRID_SIZE, floor(N * TOKEN_SIZE / GRID_SIZE) * TOKEN_SIZE)]. *)
Definition nth_coordinate (N : Z) : pos :=
  Pos (N * TOKEN_SIZE mod GRID_SIZE) (N * TOKEN_SIZE / GRID_SIZE * TOKEN_SIZE).

(** The number of lattice cells, [(GRID_SIZE / TOKEN_SIZE)^2]. *)
Definition LATTICE_CELLS : Z := (GRID_SIZE / TOKEN_SIZE) * (GRID_SIZE / TOKEN_SIZE).

(** The cell at [p] holds an object: it is claimed. *)
Definition claimed_at (g : Grid) (p : pos) : bool :=
  match grid_get g (pos_y p) (pos_x p) with
  | Ret c => truthy c
  | _ => false
  end.

(** Every lattice cell is claimed. *)
Definition lattice_full (g : Grid) : bool :=
  forallb (λ n, claimed_at g (nth_coordinate n)) (seqZ 0 LATTICE_CELLS).

(** A claim that returned a coordinate. *)
Definition successful (r : res (option pos)) : bool :=
  match r with
  | Ret (Some _) => true
  | _ => false
  end.

(** [p] is the first lattice cell, in row-major order, that is not claimed
    (and its row exists). *)
Definition first_free (g : Grid) (p : pos) : Prop :=
  ∃ n, 0 ≤ n < LATTICE_CELLS ∧ p = nth_coordinate n ∧
    (∀ m, 0 ≤ m < n → claimed_at g (nth_coordinate m) = true) ∧
    claimed_at g p = false ∧
    is_Some (arr_get g (pos_y p)).

(** [grid[p.y][p.x] = { fid }] *)
Definition mark (g : Grid) (p : pos) (fid : string) : Grid :=
  grid_set g (pos_y p) (pos_x p) (Obj fid).

(** [p] appended to the array of [fid], created when absent. *)
Definition appended (u : gmap string (list pos)) (fid : string) (p : pos)
    : gmap string (list pos) :=
  <[fid := default [] (u !! fid) ++ [p]]> u.

(** What one claim does to the state in memory, by outcome. *)
Inductive claim_step (fid : string) (w : World)
    : res (option pos) → World → Prop :=
  | claim_none :
      (∀ m, 0 ≤ m < LATTICE_CELLS →
         claimed_at (grid w) (nth_coordinate m) = true) →
      claim_step fid w (Ret None) w
  | claim_no_row :
      claim_step fid w (Throw TypeError) w
  | claim_orphan p :
      first_free (grid w) p →
      userPixels w !! fid = None →
      fid ∈ Object_prototype_keys →
      claim_step fid w (Throw TypeError)
        (MkWorld (mark (grid w) p fid) (userPixels w) (disk w) (trace w))
  | claim_indexed p r w' :
      first_free (grid w) p →
      (userPixels w !! fid = None → fid ∉ Object_prototype_keys) →
      grid w' = mark (grid w) p fid →
      userPixels w' = appended (userPixels w) fid p →
      r = Ret (Some p) ∨ (∃ code, r = Throw (SystemError code)) →
      claim_step fid w r w'.

(** The first [k] lattice cells, in row-major order, are the claimed ones. *)
Definition filled (k : Z) (g : Grid) : Prop :=
  ∀ m, 0 ≤ m < LATTICE_CELLS →
    claimed_at g (nth_coordinate m) = bool_decide (m < k).

(** A disk without snapshot files, on which reads and writes succeed. *)
Definition empty_disk : Disk :=
  MkDisk (File None None None) (File None None None).

(** A grid whose every cell is claimed by [fid]. *)
Definition full_grid (fid : string) : Grid :=
  replicate (Z.to_nat GRID_SIZE) (replicate (Z.to_nat GRID_SIZE) (Obj fid)).

(** The claim index and the claimed cells correspond one to one: every
    coordinate listed under an owner is a cell claimed by that owner and is
    listed once, and every claimed cell is listed under its owner. *)
Definition index_matches_grid (w : World) : Prop :=
  (∀ o pixels, userPixels w !! o = Some pixels →
     NoDup pixels ∧
     ∀ p, p ∈ pixels → grid_get (grid w) (pos_y p) (pos_x p) = Ret (Obj o)) ∧
  (∀ y x o, grid_get (grid w) y x = Ret (Obj o) →
     ∃ pixels, userPixels w !! o = Some pixels ∧ Pos x y ∈ pixels).

(** A disk on which every write fails (a read-only file system). *)
Definition readonly_disk : Disk :=
  MkDisk (File None None (Some "EROFS")) (File None None (Some "EROFS")).

(** [grid] and [userPixels] of [w'] are those of [w]. *)
Definition rolled_back (w w' : World) : Prop :=
  grid w' = grid w ∧ userPixels w' = userPixels w.

Definition is_write (name : string) (ev : event) : bool :=
  match ev with
  | WriteFile n => bool_decide (n = name)
  | _ => false
  end.

(** The number of [fs.writeFile] calls on the file [name] in a trace. *)
Definition write_attempts (name : string) (tr : list event) : nat :=
  length (List.filter (is_write name) tr).

(** Between [w] and [w'] some file was written, or tried, at least twice. *)
Definition persist_retried (w w' : World) : Prop :=
  ∃ name,
    (2 + write_attempts name (trace w) ≤ write_attempts name (trace w'))%nat.

(** A disk that holds a snapshot which cannot be read (permission denied). *)
Definition unreadable_disk : Disk :=
  MkDisk (File (Some (Json [[Obj "42"]])) (Some "EACCES") None)
         (File (Some (Json {["42" := [Pos 0 0]]})) None None).

(** Every row has [GRID_SIZE] elements and none of them is [undefined]. *)
Definition solid (g : Grid) : Prop :=
  Forall (λ row, length row = Z.to_nat GRID_SIZE ∧ Hole ∉ row) g.

(** The states of the process after any sequence of claims from the empty
    state, on any disk. *)
Definition reachable (w : World) : Prop :=
  ∃ d fids, w = (run fids (initial_world d)).2.

(** Two states with the same [grid] and [userPixels] whose files fail to be
    written in the same way. *)
Definition same_memory (w1 w2 : World) : Prop :=
  grid w1 = grid w2 ∧ userPixels w1 = userPixels w2 ∧
  write_error (grid_json (disk w1)) = write_error (grid_json (disk w2)) ∧
  write_error (user_pixels_json (disk w1))
    = write_error (user_pixels_json (disk w2)).

(** [p] is a coordinate the scan visits: both parts are multiples of
    [TOKEN_SIZE] from 0 and below [GRID_SIZE]. *)
Definition on_lattice (p : pos) : Prop :=
  0 ≤ pos_x p < GRID_SIZE ∧ pos_x p mod TOKEN_SIZE = 0 ∧
  0 ≤ pos_y p < GRID_SIZE ∧ pos_y p mod TOKEN_SIZE = 0.

(** The scan visits [q] before [p]: [y] is the outer loop, [x] the inner. *)
Definition row_major_before (q p : pos) : Prop :=
  pos_y q < pos_y p ∨ (pos_y q = pos_y p ∧ pos_x q < pos_x p).

(** The coordinates that the claims of a run returned to [fid], in order. *)
Fixpoint granted_to (fid : string) (fids : list string)
    (rs : list (res (option pos))) : list pos :=
  match fids, rs with
  | f :: fids, r :: rs =>
      match r with
      | Ret (Some p) => if bool_decide (f = fid) then [p] else []
      | _ => []
      end ++ granted_to fid fids rs
  | _, _ => []
  end.

(** A disk on which [grid.json] can be written and [user_pixels.json]
    cannot. *)
Definition index_readonly_disk : Disk :=
  MkDisk (File None None None) (File None None (Some "EACCES")).

(** What a process that starts on the disk [d] holds once it listens. *)
Definition restarted (d : Disk) : World := (startup (initial_world d)).2.

(** A disk whose [grid.json] is not JSON while [user_pixels.json] lists a
    pixel of the owner 7. *)
Definition corrupt_grid_disk : Disk :=
  MkDisk (File (Some NotJson) None None)
         (File (Some (Json {[ "7" := [Pos 0 0] ]})) None None).

(** The pixels that lines 66-70 visit for the tile of the cell [p]. *)
Definition tile_pixels (p : pos) : list (Z * Z * Z) :=
  scan_pixels WIDTH (scale (JNumber (pos_x p))) (scale (JNumber (pos_y p)))
    scaledTokenSize scaledTokenSize.

(** The length in bytes of the bitmap of [new Jimp(WIDTH, HEIGHT, _)]: four
    bytes a pixel. *)
Definition BITMAP_BYTES : Z := 4 * WIDTH * HEIGHT.

(** [grid[y][x] !== null] (line 65): all that [generateImage] reads of a
    cell. *)
Definition shade (g : Grid) (p : pos) : res bool :=
  c ← grid_get g (pos_y p) (pos_x p);
  mret (if c is Null then false else true).

(** A library in which [Jimp.blend] is not a function: the call of line 80
    throws a [TypeError]. *)
Definition blend_undefined `{Lib} : Prop :=
  ∀ base over, Jimp_blend base over = Throws TypeError.

(** A library whose buffer refuses a write at an offset from the end of the
    bitmap on. *)
Definition bounds_checked `{Lib} : Prop :=
  ∀ data value offset, BITMAP_BYTES ≤ offset →
    ∃ e, writeUInt32BE data value offset = Throws e.

(** The class [Lib] is inhabited: a library whose calls return constants. *)
Definition constant_lib : Lib := {|
  Math_sin := λ _, 0%float;
  Math_sin_0 := eq_refl;
  Jimp_rgbaToInt := λ _ _ _ _, 0;
  Jimp_blend := λ _ over, Returns over;
  buffer := unit;
  Jimp_bitmap := λ _ _ _, ();
  writeUInt32BE := λ data _ _, Returns data;
  readUInt32BE := λ _ _, Returns 0;
  Jimp_print := λ img _ _ _, Returns img;
  Jimp_getBuffer := λ _, Returns [];
  Buffer_toString_base64 := λ _, "";
  hub_validateMessage := λ _, Returns true
|}.

(** A library whose buffer checks the bounds of a write, and whose hub
    validates the message [valid] only: it rejects the others and fails on
    the empty one. *)
Definition strict_lib : Lib := {|
  Math_sin := λ _, 0%float;
  Math_sin_0 := eq_refl;
  Jimp_rgbaToInt := λ _ _ _ _, 0;
  Jimp_blend := λ _ over, Returns over;
  buffer := unit;
  Jimp_bitmap := λ _ _ _, ();
  writeUInt32BE := λ data _ offset,
    if bool_decide (0 ≤ offset ∧ offset + 4 ≤ BITMAP_BYTES)
    then Returns data else Throws RangeError;
  readUInt32BE := λ _ _, Returns 0;
  Jimp_print := λ img _ _ _, Returns img;
  Jimp_getBuffer := λ _, Returns [];
  Buffer_toString_base64 := λ _, "";
  hub_validateMessage := λ messageBytes,
    if bool_decide (messageBytes = "") then Throws TypeError
    else Returns (bool_decide (messageBytes = "valid"))
|}.

(** A library without [Jimp.blend], whose other calls return constants. *)
Definition jimp_without_blend : Lib := {|
  Math_sin := λ _, 0%float;
  Math_sin_0 := eq_refl;
  Jimp_rgbaToInt := λ _ _ _ _, 0;
  Jimp_blend := λ _ _, Throws TypeError;
  buffer := unit;
  Jimp_bitmap := λ _ _ _, ();
  writeUInt32BE := λ data _ _, Returns data;
  readUInt32BE := λ _ _, Returns 0;
  Jimp_print := λ img _ _ _, Returns img;
  Jimp_getBuffer := λ _, Returns [];
  Buffer_toString_base64 := λ _, "";
  hub_validateMessage := λ _, Returns true
|}.

(** * Properties *)

(** Arithmetic over the constants of the configuration. *)
Ltac consts :=
  change LATTICE_CELLS with 10000 in *;
  change (Z.of_nat LOOP_FUEL) with 1000 in *;
  unfold GRID_SIZE, TOKEN_SIZE in *.
Ltac arith := consts; lia.

(** ** Arrays and the grid *)

Lemma arr_get_Some {A} (a : list A) (i : Z) (v : A) :
  arr_get a i = Some v ↔ 0 ≤ i ∧ a !! Z.to_nat i = Some v.
Proof.
  unfold arr_get. destruct (bool_decide_reflect (0 ≤ i)).
  - tauto.
  - split; [discriminate | tauto].
Qed.

Lemma arr_get_None {A} (a : list A) (i : Z) :
  arr_get a i = None ↔ i < 0 ∨ (length a ≤ Z.to_nat i)%nat.
Proof.
  unfold arr_get. destruct (bool_decide_reflect (0 ≤ i)).
  - rewrite lookup_ge_None. split; [auto | intros [?|?]; [lia | done]].
  - split; [intros _; left; lia | done].
Qed.

Lemma elem_arr_set_eq (row : list cell) (i : Z) (v : cell) :
  0 ≤ i → elem (arr_set row i v) i = v.
Proof.
  intros Hi. unfold elem, arr_set, arr_get.
  rewrite (bool_decide_eq_false_2 (i < 0)) by lia.
  rewrite (bool_decide_eq_true_2 (0 ≤ i)) by done.
  destruct (bool_decide_reflect (Z.to_nat i < length row)%nat) as [Hlt|Hlt].
  - by rewrite list_lookup_insert_eq.
  - rewrite lookup_app_r by lia.
    rewrite lookup_app_r by (rewrite length_replicate; lia).
    rewrite length_replicate.
    replace (Z.to_nat i - length row - (Z.to_nat i - length row))%nat
      with 0%nat by lia.
    done.
Qed.

Lemma elem_arr_set_ne (row : list cell) (i j : Z) (v : cell) :
  i ≠ j → elem (arr_set row i v) j = elem row j.
Proof.
  intros Hne. unfold elem, arr_set, arr_get.
  destruct (bool_decide_reflect (i < 0)) as [Hneg|Hneg]; [done|].
  destruct (bool_decide_reflect (0 ≤ j)) as [Hj|Hj]; [|done].
  assert (Z.to_nat i ≠ Z.to_nat j) by lia.
  destruct (bool_decide_reflect (Z.to_nat i < length row)%nat) as [Hlt|Hlt].
  - by rewrite list_lookup_insert_ne.
  - destruct (decide (Z.to_nat j < length row)%nat) as [Hjl|Hjl].
    + by rewrite lookup_app_l.
    + rewrite (lookup_ge_None_2 row) by lia. simpl.
      rewrite lookup_app_r by lia.
      destruct (decide (Z.to_nat j - length row
                        < Z.to_nat i - length row)%nat) as [Hin|Hin].
      * rewrite lookup_app_l by (rewrite length_replicate; lia).
        by rewrite lookup_replicate_2.
      * rewrite lookup_app_r by (rewrite length_replicate; lia).
        rewrite length_replicate.
        rewrite lookup_ge_None_2; [done | simpl; lia].
Qed.

Lemma grid_get_set_eq (g : Grid) (y x : Z) (v : cell) :
  is_Some (arr_get g y) → 0 ≤ x → grid_get (grid_set g y x v) y x = Ret v.
Proof.
  intros [row Hrow] Hx. unfold grid_get, grid_set. rewrite Hrow.
  apply arr_get_Some in Hrow as [Hy Hrow].
  assert (arr_get (<[Z.to_nat y := arr_set row x v]> g) y
          = Some (arr_set row x v)) as ->.
  { apply arr_get_Some. split; [done|].
    apply list_lookup_insert_eq. by eapply lookup_lt_Some. }
  by rewrite elem_arr_set_eq.
Qed.

Lemma grid_get_set_ne (g : Grid) (y x y' x' : Z) (v : cell) :
  (y, x) ≠ (y', x') →
  grid_get (grid_set g y x v) y' x' = grid_get g y' x'.
Proof.
  intros Hne. unfold grid_get, grid_set.
  destruct (arr_get g y) as [row|] eqn:Hrow; [|done].
  apply arr_get_Some in Hrow as [Hy Hrow].
  unfold arr_get.
  destruct (bool_decide_reflect (0 ≤ y')) as [Hy'|Hy']; [|done].
  destruct (decide (y = y')) as [<-|Hyy].
  - rewrite list_lookup_insert_eq by (by eapply lookup_lt_Some).
    rewrite Hrow. f_equal. apply elem_arr_set_ne. congruence.
  - rewrite list_lookup_insert_ne by lia. done.
Qed.

(** ** The scan *)

(** The inner loop from column [x]: it stops at the first cell of the row,
    in steps of [TOKEN_SIZE], that is not claimed. *)
Lemma scan_row_spec (fuel : nat) (fid : string) (g : Grid) (y x : Z) :
  GRID_SIZE + TOKEN_SIZE ≤ x + TOKEN_SIZE * Z.of_nat fuel →
  x < GRID_SIZE + TOKEN_SIZE →
  match scan_row fuel fid g y x with
  | Ret (Some (p, g')) =>
      ∃ t, 0 ≤ t ∧ x + TOKEN_SIZE * t < GRID_SIZE ∧
        p = Pos (x + TOKEN_SIZE * t) y ∧
        (∀ s, 0 ≤ s < t → claimed_at g (Pos (x + TOKEN_SIZE * s) y) = true) ∧
        claimed_at g p = false ∧
        is_Some (arr_get g y) ∧
        g' = grid_set g y (x + TOKEN_SIZE * t) (Obj fid)
  | Ret None =>
      ∀ s, 0 ≤ s → x + TOKEN_SIZE * s < GRID_SIZE →
        claimed_at g (Pos (x + TOKEN_SIZE * s) y) = true
  | Throw e => e = TypeError ∧ arr_get g y = None
  | OutOfFuel => False
  end.
Proof.
  revert x. induction fuel as [|fuel IH]; intros x Hfuel Hx.
  { arith. }
  simpl. destruct (bool_decide_reflect (x < GRID_SIZE)) as [Hlt|Hge].
  - unfold grid_get. destruct (arr_get g y) as [row|] eqn:Hrow; [|done].
    destruct (truthy (elem row x)) eqn:Hc.
    + specialize (IH (x + TOKEN_SIZE)).
      destruct (scan_row fuel fid g y (x + TOKEN_SIZE)) as [[[p g']|]|e|].
      * destruct IH as (t & Ht & Hlt' & -> & Hbefore & Hfree & Hsome & ->);
          [arith..|].
        exists (t + 1). split; [lia|]. split; [lia|].
        replace (x + TOKEN_SIZE * (t + 1))
          with (x + TOKEN_SIZE + TOKEN_SIZE * t) by lia.
        split; [done|]. split; [|done].
        intros s Hs. destruct (decide (s = 0)) as [->|Hs0].
        -- unfold claimed_at, grid_get; simpl. rewrite Hrow.
           by replace (x + TOKEN_SIZE * 0) with x by lia.
        -- replace (x + TOKEN_SIZE * s)
             with (x + TOKEN_SIZE + TOKEN_SIZE * (s - 1)) by lia.
           apply Hbefore. lia.
      * intros s Hs Hslt. destruct (decide (s = 0)) as [->|Hs0].
        -- unfold claimed_at, grid_get; simpl. rewrite Hrow.
           by replace (x + TOKEN_SIZE * 0) with x by lia.
        -- replace (x + TOKEN_SIZE * s)
             with (x + TOKEN_SIZE + TOKEN_SIZE * (s - 1)) by lia.
           apply IH; arith.
      * apply IH; arith.
      * apply IH; arith.
    + exists 0. replace (x + TOKEN_SIZE * 0) with x by lia.
      repeat split; try done; try lia.
      unfold claimed_at, grid_get; simpl. by rewrite Hrow.
  - intros s Hs Hslt. arith.
Qed.

Lemma scan_rows_unfold (fuel : nat) (fid : string) (g : Grid) (y : Z) :
  scan_rows (S fuel) fid g y =
    if bool_decide (y < GRID_SIZE) then
      match scan_row LOOP_FUEL fid g y 0 with
      | Ret None => scan_rows fuel fid g (y + TOKEN_SIZE)
      | r => r
      end
    else Ret None.
Proof. reflexivity. Qed.

(** The outer loop from row [y]: the rows before the one it stops in are
    claimed at every step of [TOKEN_SIZE]. *)
Lemma scan_rows_spec (fuel : nat) (fid : string) (g : Grid) (y : Z) :
  GRID_SIZE + TOKEN_SIZE ≤ y + TOKEN_SIZE * Z.of_nat fuel →
  y < GRID_SIZE + TOKEN_SIZE →
  match scan_rows fuel fid g y with
  | Ret (Some (p, g')) =>
      ∃ u t, 0 ≤ u ∧ 0 ≤ t ∧
        y + TOKEN_SIZE * u < GRID_SIZE ∧ TOKEN_SIZE * t < GRID_SIZE ∧
        p = Pos (TOKEN_SIZE * t) (y + TOKEN_SIZE * u) ∧
        (∀ u' s, 0 ≤ u' < u → 0 ≤ s → TOKEN_SIZE * s < GRID_SIZE →
           claimed_at g (Pos (TOKEN_SIZE * s) (y + TOKEN_SIZE * u')) = true) ∧
        (∀ s, 0 ≤ s < t →
           claimed_at g (Pos (TOKEN_SIZE * s) (y + TOKEN_SIZE * u)) = true) ∧
        claimed_at g p = false ∧
        is_Some (arr_get g (pos_y p)) ∧
        g' = grid_set g (pos_y p) (pos_x p) (Obj fid)
  | Ret None =>
      ∀ u s, 0 ≤ u → y + TOKEN_SIZE * u < GRID_SIZE →
        0 ≤ s → TOKEN_SIZE * s < GRID_SIZE →
        claimed_at g (Pos (TOKEN_SIZE * s) (y + TOKEN_SIZE * u)) = true
  | Throw e =>
      e = TypeError ∧
      ∃ u, 0 ≤ u ∧ y + TOKEN_SIZE * u < GRID_SIZE ∧
        arr_get g (y + TOKEN_SIZE * u) = None
  | OutOfFuel => False
  end.
Proof.
  revert y. induction fuel as [|fuel IH]; intros y Hfuel Hy.
  { arith. }
  rewrite scan_rows_unfold.
  destruct (bool_decide_reflect (y < GRID_SIZE)) as [Hlt|Hge].
  - pose proof (scan_row_spec LOOP_FUEL fid g y 0) as Hrow.
    destruct (scan_row LOOP_FUEL fid g y 0) as [[[p g']|]|e|].
    + destruct Hrow as (t & Ht & Hlt' & -> & Hbefore & Hfree & Hsome & ->);
        [arith..|].
      exists 0, t. simpl.
      replace (y + TOKEN_SIZE * 0) with y by lia.
      repeat split; try done; try lia.
      all: intros; lia.
    + specialize (IH (y + TOKEN_SIZE)).
      assert (∀ s, 0 ≤ s → TOKEN_SIZE * s < GRID_SIZE →
                claimed_at g (Pos (TOKEN_SIZE * s) y) = true) as Hfull.
      { intros s Hs Hslt. apply (Hrow ltac:(arith)
                                    ltac:(arith) s Hs Hslt). }
      clear Hrow.
      destruct (scan_rows fuel fid g (y + TOKEN_SIZE)) as [[[p g']|]|e|].
      * destruct IH as (u & t & Hu & Ht & Hlu & Hlt' & -> & Hrows & Hbefore
                        & Hfree & Hsome & ->);
          [arith..|].
        exists (u + 1), t. simpl in *.
        replace (y + TOKEN_SIZE * (u + 1))
          with (y + TOKEN_SIZE + TOKEN_SIZE * u) by lia.
        repeat split; try done; try lia.
        intros u' s Hu' Hs Hslt. destruct (decide (u' = 0)) as [->|Hu0].
        -- replace (y + TOKEN_SIZE * 0) with y by lia. by apply Hfull.
        -- replace (y + TOKEN_SIZE * u')
             with (y + TOKEN_SIZE + TOKEN_SIZE * (u' - 1)) by lia.
           apply Hrows; lia.
      * intros u s Hu Hlu Hs Hslt. destruct (decide (u = 0)) as [->|Hu0].
        -- replace (y + TOKEN_SIZE * 0) with y by lia. by apply Hfull.
        -- replace (y + TOKEN_SIZE * u)
             with (y + TOKEN_SIZE + TOKEN_SIZE * (u - 1)) by lia.
           apply IH; arith.
      * destruct IH as (-> & u & Hu & Hlu & Hnone); [arith..|].
        split; [done|]. exists (u + 1).
        replace (y + TOKEN_SIZE * (u + 1))
          with (y + TOKEN_SIZE + TOKEN_SIZE * u) by lia.
        repeat split; try done; lia.
      * apply IH; arith.
    + destruct Hrow as (-> & Hnone); [arith..|].
      split; [done|]. exists 0.
      replace (y + TOKEN_SIZE * 0) with y by lia.
      repeat split; try done; lia.
    + apply Hrow; arith.
  - intros u s Hu Hlu. arith.
Qed.

Lemma nth_coordinate_split (n : Z) :
  nth_coordinate n = Pos (TOKEN_SIZE * (n mod 100)) (0 + TOKEN_SIZE * (n / 100)).
Proof.
  unfold nth_coordinate, GRID_SIZE, TOKEN_SIZE.
  f_equal; Z.div_mod_to_equations; lia.
Qed.

Lemma nth_coordinate_join (u t : Z) :
  0 ≤ t → TOKEN_SIZE * t < GRID_SIZE →
  Pos (TOKEN_SIZE * t) (0 + TOKEN_SIZE * u) = nth_coordinate (100 * u + t).
Proof.
  unfold nth_coordinate, GRID_SIZE, TOKEN_SIZE. intros.
  f_equal; Z.div_mod_to_equations; lia.
Qed.

Lemma nth_coordinate_inj (n m : Z) :
  nth_coordinate n = nth_coordinate m → n = m.
Proof.
  unfold nth_coordinate, GRID_SIZE, TOKEN_SIZE. intros [= Hx Hy].
  Z.div_mod_to_equations. lia.
Qed.

Lemma nth_coordinate_nonneg (n : Z) :
  0 ≤ n → 0 ≤ pos_x (nth_coordinate n) ∧ 0 ≤ pos_y (nth_coordinate n).
Proof.
  unfold nth_coordinate, GRID_SIZE, TOKEN_SIZE. simpl.
  Z.div_mod_to_equations. lia.
Qed.

(** The scan as a whole: it returns the first lattice cell, in row-major
    order, that is not claimed, and writes [{ fid }] there; it returns
    nothing, and writes nothing, when every lattice cell is claimed. *)
Lemma scan_spec (fid : string) (g : Grid) :
  match scan fid g with
  | Ret (Some (p, g')) =>
      ∃ n, 0 ≤ n < LATTICE_CELLS ∧ p = nth_coordinate n ∧
        (∀ m, 0 ≤ m < n → claimed_at g (nth_coordinate m) = true) ∧
        claimed_at g p = false ∧
        is_Some (arr_get g (pos_y p)) ∧
        g' = grid_set g (pos_y p) (pos_x p) (Obj fid)
  | Ret None =>
      ∀ m, 0 ≤ m < LATTICE_CELLS → claimed_at g (nth_coordinate m) = true
  | Throw e =>
      e = TypeError ∧
      ∃ m, 0 ≤ m < LATTICE_CELLS ∧
        arr_get g (pos_y (nth_coordinate m)) = None
  | OutOfFuel => False
  end.
Proof.
  unfold scan. pose proof (scan_rows_spec LOOP_FUEL fid g 0) as H.
  destruct (scan_rows LOOP_FUEL fid g 0) as [[[p g']|]|e|].
  - destruct H as (u & t & Hu & Ht & Hlu & Hlt & -> & Hrows & Hbefore
                   & Hfree & Hsome & ->);
      [arith..|].
    exists (100 * u + t).
    rewrite <- nth_coordinate_join by done.
    split; [arith|].
    repeat split; try done.
    intros m Hm. rewrite nth_coordinate_split.
    pose proof (Z.div_mod m 100 ltac:(lia)) as Hdm.
    pose proof (Z.mod_pos_bound m 100 ltac:(lia)) as Hmb.
    destruct (decide (m / 100 < u)) as [Hrow|Hrow].
    + apply Hrows; arith.
    + replace (m / 100) with u by arith.
      apply Hbefore. arith.
  - intros m Hm. rewrite nth_coordinate_split.
    pose proof (Z.div_mod m 100 ltac:(lia)) as Hdm.
    pose proof (Z.mod_pos_bound m 100 ltac:(lia)) as Hmb.
    apply H; arith.
  - destruct H as (-> & u & Hu & Hlu & Hnone); [arith..|].
    split; [done|]. exists (100 * u + 0).
    split; [arith|].
    rewrite <- nth_coordinate_join by arith.
    simpl. done.
  - apply H; arith.
Qed.

(** ** Saving *)

Lemma saveData_grid_error (w : World) (code : string) :
  write_error (grid_json (disk w)) = Some code →
  saveData w =
    (Throw (SystemError code),
     MkWorld (grid w) (userPixels w) (disk w)
       (trace w ++ [WriteFile "grid.json"])).
Proof.
  intros H. unfold saveData, write_grid_json, bind, emit, lift, fs_writeFile.
  simpl. rewrite H. done.
Qed.

Lemma saveData_user_error (w : World) (code : string) :
  write_error (grid_json (disk w)) = None →
  write_error (user_pixels_json (disk w)) = Some code →
  saveData w =
    (Throw (SystemError code),
     MkWorld (grid w) (userPixels w)
       (MkDisk (File (Some (JSON_stringify_grid (grid w)))
                  (read_error (grid_json (disk w))) None)
               (user_pixels_json (disk w)))
       ((trace w ++ [WriteFile "grid.json"]) ++ [WriteFile "user_pixels.json"])).
Proof.
  intros Hg Hu.
  unfold saveData, write_grid_json, write_user_pixels_json, bind, emit, lift,
    set_disk, fs_writeFile.
  simpl. rewrite Hg. simpl. rewrite Hu. done.
Qed.

Lemma saveData_ok (w : World) :
  write_error (grid_json (disk w)) = None →
  write_error (user_pixels_json (disk w)) = None →
  saveData w =
    (Ret (),
     MkWorld (grid w) (userPixels w)
       (MkDisk (File (Some (JSON_stringify_grid (grid w)))
                  (read_error (grid_json (disk w))) None)
               (File (Some (JSON_stringify_userPixels (userPixels w)))
                  (read_error (user_pixels_json (disk w))) None))
       ((trace w ++ [WriteFile "grid.json"]) ++ [WriteFile "user_pixels.json"])).
Proof.
  intros Hg Hu.
  unfold saveData, write_grid_json, write_user_pixels_json, bind, emit, lift,
    set_disk, fs_writeFile.
  simpl. rewrite Hg. simpl. rewrite Hu. done.
Qed.

(** Saving ends by returning or with the error of a write; it changes
    neither [grid] nor [userPixels]. *)
Lemma saveData_memory (w : World) :
  grid (saveData w).2 = grid w ∧ userPixels (saveData w).2 = userPixels w ∧
  ((saveData w).1 = Ret () ∨ ∃ code, (saveData w).1 = Throw (SystemError code)).
Proof.
  destruct (write_error (grid_json (disk w))) as [c|] eqn:Hg.
  { rewrite (saveData_grid_error w c Hg). simpl. eauto. }
  destruct (write_error (user_pixels_json (disk w))) as [c|] eqn:Hu.
  { rewrite (saveData_user_error w c Hg Hu). simpl. eauto. }
  rewrite (saveData_ok w Hg Hu). simpl. eauto.
Qed.

(** ** One claim *)

(** The claim, unfolded along the scan and the lookup of [userPixels[fid]]. *)
Lemma claim_cases (fid : string) (w : World) :
  claim fid w =
    match scan fid (grid w) with
    | Ret (Some (p, g)) =>
        match get_property (userPixels w) fid with
        | Inherited =>
            (Throw TypeError, MkWorld g (userPixels w) (disk w) (trace w))
        | _ =>
            let w2 := MkWorld g (appended (userPixels w) fid p)
                        (disk w) (trace w) in
            (match (saveData w2).1 with
             | Ret _ => Ret (Some p)
             | Throw e => Throw e
             | OutOfFuel => OutOfFuel
             end, (saveData w2).2)
        end
    | Ret None => (Ret None, w)
    | Throw e => (Throw e, w)
    | OutOfFuel => (OutOfFuel, w)
    end.
Proof.
  unfold claim, bind, scan_grid.
  destruct (scan fid (grid w)) as [[[p g]|]|e|]; try done.
  unfold push_userPixels, bind, appended, get_property, set_userPixels, ret,
    throw. simpl.
  destruct (userPixels w !! fid) as [pixels|] eqn:Hfid; simpl.
  - rewrite Hfid.
    by destruct (saveData _) as [[[]|e|] w3].
  - destruct (bool_decide_reflect (fid ∈ Object_prototype_keys)) as [Hin|Hin];
      simpl.
    + by rewrite Hfid.
    + rewrite lookup_insert_eq, insert_insert_eq. simpl.
      by destruct (saveData _) as [[[]|e|] w3].
Qed.

(** Every claim is one of the steps of [claim_step]. *)
Lemma claim_is_step (fid : string) (w : World) :
  claim_step fid w (claim fid w).1 (claim fid w).2.
Proof.
  rewrite claim_cases. pose proof (scan_spec fid (grid w)) as Hscan.
  destruct (scan fid (grid w)) as [[[p g]|]|e|]; simpl.
  - destruct Hscan as (n & Hn & Hp & Hbefore & Hfree & Hrow & ->).
    assert (first_free (grid w) p) as Hff by (exists n; done).
    unfold get_property.
    destruct (userPixels w !! fid) as [pixels|] eqn:Hfid.
    + destruct (saveData_memory
                  (MkWorld (grid_set (grid w) (pos_y p) (pos_x p) (Obj fid))
                     (appended (userPixels w) fid p) (disk w) (trace w)))
        as (Hg & Hu & Hr).
      eapply claim_indexed; eauto; [congruence|].
      destruct Hr as [->|[c ->]]; eauto.
    + destruct (bool_decide_reflect (fid ∈ Object_prototype_keys)) as [Hin|Hin].
      * simpl. by apply claim_orphan.
      * destruct (saveData_memory
                    (MkWorld (grid_set (grid w) (pos_y p) (pos_x p) (Obj fid))
                       (appended (userPixels w) fid p) (disk w) (trace w)))
          as (Hg & Hu & Hr).
        eapply claim_indexed; eauto.
        destruct Hr as [->|[c ->]]; eauto.
  - by apply claim_none.
  - destruct Hscan as [-> _]. apply claim_no_row.
  - done.
Qed.

Lemma first_free_unclaimed (g : Grid) (p : pos) :
  first_free g p → claimed_at g p = false.
Proof. by intros (n & _ & _ & _ & H & _). Qed.

Lemma grid_get_mark_eq (g : Grid) (p : pos) (fid : string) :
  first_free g p → grid_get (mark g p fid) (pos_y p) (pos_x p) = Ret (Obj fid).
Proof.
  intros (n & Hn & -> & _ & _ & Hrow). apply grid_get_set_eq; [done|].
  apply nth_coordinate_nonneg. lia.
Qed.

Lemma grid_get_mark_ne (g : Grid) (p : pos) (fid : string) (y x : Z) :
  (y, x) ≠ (pos_y p, pos_x p) →
  grid_get (mark g p fid) y x = grid_get g y x.
Proof. intros Hne. apply grid_get_set_ne. congruence. Qed.

(** A claimed cell is not the one the scan writes. *)
Lemma grid_get_mark_claimed (g : Grid) (p : pos) (fid o : string) (y x : Z) :
  claimed_at g p = false →
  grid_get g y x = Ret (Obj o) →
  grid_get (mark g p fid) y x = Ret (Obj o).
Proof.
  intros Hfree Hobj. rewrite grid_get_mark_ne; [done|].
  intros [= -> ->]. unfold claimed_at in Hfree. by rewrite Hobj in Hfree.
Qed.

Lemma claim_step_keeps (fid : string) (w w' : World) (r : res (option pos))
    (y x : Z) (o : string) :
  claim_step fid w r w' →
  grid_get (grid w) y x = Ret (Obj o) →
  grid_get (grid w') y x = Ret (Obj o).
Proof.
  intros Hstep Hobj. inversion Hstep as [| |p Hff|p r' w'' Hff _ Hg]; subst;
    try done.
  - simpl. by apply grid_get_mark_claimed; [apply first_free_unclaimed|].
  - rewrite Hg. by apply grid_get_mark_claimed; [apply first_free_unclaimed|].
Qed.

(** A claim that returns a coordinate is an indexed step at that coordinate. *)
Lemma claim_returns (fid : string) (w : World) (p : pos) :
  (claim fid w).1 = Ret (Some p) →
  first_free (grid w) p ∧
  grid (claim fid w).2 = mark (grid w) p fid ∧
  userPixels (claim fid w).2 = appended (userPixels w) fid p.
Proof.
  intros Hr. pose proof (claim_is_step fid w) as Hstep. rewrite Hr in Hstep.
  inversion Hstep as [| | |q r' w'' Hff _ Hg Hu Hq]; subst.
  destruct Hq as [[= <-]|[c [=]]]. done.
Qed.

(** ** Sequences of claims *)

Lemma run_cons (fid : string) (fids : list string) (w : World) :
  run (fid :: fids) w =
    ((claim fid w).1 :: (run fids (claim fid w).2).1,
     (run fids (claim fid w).2).2).
Proof.
  simpl. destruct (claim fid w) as [r w1]. simpl.
  by destruct (run fids w1) as [rs w2].
Qed.

Lemma run_keeps (fids : list string) (w : World) (y x : Z) (o : string) :
  grid_get (grid w) y x = Ret (Obj o) →
  grid_get (grid (run fids w).2) y x = Ret (Obj o).
Proof.
  revert w. induction fids as [|fid fids IH]; intros w Hobj; [done|].
  rewrite run_cons. simpl. apply IH.
  eapply claim_step_keeps; [apply claim_is_step | done].
Qed.

(** No claim of a run returns a cell that was claimed before the run. *)
Lemma run_avoids (fids : list string) (w : World) (j : nat) (q : pos)
    (y x : Z) (o : string) :
  grid_get (grid w) y x = Ret (Obj o) →
  (run fids w).1 !! j = Some (Ret (Some q)) →
  q ≠ Pos x y.
Proof.
  revert w j. induction fids as [|fid fids IH]; intros w j Hobj Hj; [done|].
  rewrite run_cons in Hj. simpl in Hj. destruct j as [|j]; simpl in Hj.
  - injection Hj as Hj. apply claim_returns in Hj as (Hff & _).
    apply first_free_unclaimed in Hff. intros ->.
    unfold claimed_at in Hff. simpl in Hff. by rewrite Hobj in Hff.
  - eapply IH; [|done].
    eapply claim_step_keeps; [apply claim_is_step | done].
Qed.

(** ** Row-major order *)

Lemma fresh_grid_unclaimed (p : pos) : claimed_at fresh_grid p = false.
Proof.
  unfold claimed_at, grid_get, fresh_grid.
  destruct (arr_get _ (pos_y p)) as [row|] eqn:Hrow; [|done].
  apply arr_get_Some in Hrow as [_ Hrow].
  apply lookup_replicate in Hrow as [-> _].
  unfold elem. destruct (arr_get _ (pos_x p)) as [c|] eqn:Hc; [|done].
  apply arr_get_Some in Hc as [_ Hc].
  by apply lookup_replicate in Hc as [-> _].
Qed.

Lemma filled_fresh : filled 0 fresh_grid.
Proof.
  intros m Hm. rewrite fresh_grid_unclaimed.
  symmetry. apply bool_decide_eq_false. lia.
Qed.

Lemma first_free_filled (k : Z) (g : Grid) (p : pos) :
  0 ≤ k → filled k g → first_free g p →
  p = nth_coordinate k ∧ k < LATTICE_CELLS.
Proof.
  intros Hk Hfilled (n & Hn & -> & Hbefore & Hfree & _).
  rewrite Hfilled in Hfree by done. apply bool_decide_eq_false in Hfree.
  destruct (decide (n = k)) as [->|Hne]; [split; [done | lia]|].
  specialize (Hbefore k ltac:(lia)). rewrite Hfilled in Hbefore by lia.
  apply bool_decide_eq_true in Hbefore. lia.
Qed.

Lemma filled_mark (k : Z) (g : Grid) (fid : string) :
  0 ≤ k → filled k g → first_free g (nth_coordinate k) →
  filled (k + 1) (mark g (nth_coordinate k) fid).
Proof.
  intros Hk Hfilled Hff m Hm. unfold claimed_at.
  destruct (decide (m = k)) as [->|Hne].
  - rewrite grid_get_mark_eq by done. simpl.
    symmetry. apply bool_decide_eq_true. lia.
  - rewrite grid_get_mark_ne.
    + fold (claimed_at g (nth_coordinate m)). rewrite Hfilled by done.
      apply bool_decide_ext. lia.
    + intros [= Hy Hx]. apply Hne, nth_coordinate_inj.
      unfold nth_coordinate. congruence.
Qed.

Lemma run_row_major (fids : list string) (k : Z) (w : World) (n : nat)
    (r : res (option pos)) :
  0 ≤ k → filled k (grid w) →
  forallb successful (run fids w).1 = true →
  (run fids w).1 !! n = Some r →
  r = Ret (Some (nth_coordinate (k + Z.of_nat n))).
Proof.
  revert k w n. induction fids as [|fid fids IH]; intros k w n Hk Hfilled Hall Hn;
    [done|].
  rewrite run_cons in Hall, Hn. simpl in Hall, Hn.
  apply andb_true_iff in Hall as [Hfirst Hrest].
  destruct (claim fid w).1 as [[p|]|e|] eqn:Hr; try done.
  apply claim_returns in Hr as (Hff & Hg & _).
  destruct (first_free_filled k _ p Hk Hfilled Hff) as [-> Hlt].
  destruct n as [|n]; simpl in Hn.
  - injection Hn as <-. by replace (k + Z.of_nat 0) with k by lia.
  - replace (k + Z.of_nat (S n)) with (k + 1 + Z.of_nat n) by lia.
    eapply IH; [| |exact Hrest|exact Hn]; [lia|].
    rewrite Hg. by apply filled_mark.
Qed.

(** C1. For every sequence of successful claims from the empty grid, the
    Nth successful claim (counted from 0) returns the coordinate
    [(N * TOKEN_SIZE mod GRID_SIZE, floor(N * TOKEN_SIZE / GRID_SIZE) * TOKEN_SIZE)]:
    claims are granted in row-major lattice order. *)
Theorem claims_in_row_major_order (d : Disk) (fids : list string) (N : nat)
    (r : res (option pos)) :
  forallb successful (run fids (initial_world d)).1 = true →
  (run fids (initial_world d)).1 !! N = Some r →
  r = Ret (Some (nth_coordinate (Z.of_nat N))).
Proof.
  intros Hall HN.
  apply (run_row_major fids 0 (initial_world d) N r); try done.
  apply filled_fresh.
Qed.

Lemma claims_in_row_major_order_witness :
  let rs := (run ["42"; "7"; "42"] (initial_world empty_disk)).1 in
  forallb successful rs = true ∧
  rs !! 2%nat = Some (Ret (Some (Pos 20 0))) ∧
  Ret (Some (Pos 20 0)) = Ret (Some (nth_coordinate (Z.of_nat 2))).
Proof.
  assert (forallb successful
            (run ["42"; "7"; "42"] (initial_world empty_disk)).1 = true) as Hall
    by (vm_compute; reflexivity).
  assert ((run ["42"; "7"; "42"] (initial_world empty_disk)).1 !! 2%nat
          = Some (Ret (Some (Pos 20 0)))) as HN
    by (vm_compute; reflexivity).
  split; [exact Hall|]. split; [exact HN|].
  exact (claims_in_row_major_order empty_disk ["42"; "7"; "42"] 2
           (Ret (Some (Pos 20 0))) Hall HN).
Defined.

(** ** Cells are claimed once *)

(** C2. Over every sequence of claims, a claimed cell keeps its content (it
    is never written again and never reverts), and no two claims that
    return a coordinate return the same one. *)
Theorem cells_claimed_once (fids : list string) (w : World) :
  (∀ y x o, grid_get (grid w) y x = Ret (Obj o) →
     grid_get (grid (run fids w).2) y x = Ret (Obj o)) ∧
  (∀ i j p q, i ≠ j →
     (run fids w).1 !! i = Some (Ret (Some p)) →
     (run fids w).1 !! j = Some (Ret (Some q)) →
     p ≠ q).
Proof.
  split; [intros y x o; apply run_keeps|]. revert w.
  induction fids as [|fid fids IH]; intros w i j p q Hne Hi Hj; [done|].
  rewrite run_cons in Hi, Hj. simpl in Hi, Hj.
  destruct i as [|i], j as [|j]; simpl in Hi, Hj; try done.
  - injection Hi as Hi. destruct p as [x y].
    apply claim_returns in Hi as (Hff & Hg & _).
    apply not_eq_sym. eapply run_avoids; [|exact Hj].
    rewrite Hg. apply (grid_get_mark_eq _ (Pos x y) fid Hff).
  - injection Hj as Hj. destruct q as [x y].
    apply claim_returns in Hj as (Hff & Hg & _).
    eapply run_avoids; [|exact Hi].
    rewrite Hg. apply (grid_get_mark_eq _ (Pos x y) fid Hff).
  - eapply IH; [|exact Hi|exact Hj]. congruence.
Qed.

Lemma cells_claimed_once_witness :
  let w := (claim "7" (initial_world empty_disk)).2 in
  grid_get (grid (run ["42"; "42"] w).2) 0 0 = Ret (Obj "7") ∧
  Pos 10 0 ≠ Pos 20 0.
Proof.
  pose proof (cells_claimed_once ["42"; "42"]
                (claim "7" (initial_world empty_disk)).2) as [Hkeep Huniq].
  split.
  - apply Hkeep. vm_compute. reflexivity.
  - apply (Huniq 0%nat 1%nat); [lia | vm_compute; reflexivity..].
Defined.

(** ** The frame of a claim *)

(** C10. A claim by [fid] that returns [p] writes the single cell
    [grid[p.y][p.x]] and appends [p] to [userPixels[fid]], created when
    absent: every other cell and every other owner's array is as before, and
    the entries [fid] already had keep their values and order. *)
Theorem claim_frame (fid : string) (w : World) (p : pos) :
  (claim fid w).1 = Ret (Some p) →
  grid_get (grid (claim fid w).2) (pos_y p) (pos_x p) = Ret (Obj fid) ∧
  (∀ y x, (y, x) ≠ (pos_y p, pos_x p) →
     grid_get (grid (claim fid w).2) y x = grid_get (grid w) y x) ∧
  userPixels (claim fid w).2 !! fid
    = Some (default [] (userPixels w !! fid) ++ [p]) ∧
  (∀ o, o ≠ fid → userPixels (claim fid w).2 !! o = userPixels w !! o).
Proof.
  intros Hr. apply claim_returns in Hr as (Hff & -> & ->).
  split; [by apply grid_get_mark_eq|].
  split; [intros y x Hne; by apply grid_get_mark_ne|].
  unfold appended. split; [apply lookup_insert_eq|].
  intros o Hne. by apply lookup_insert_ne.
Qed.

Lemma claim_frame_witness :
  let w := (claim "42" (initial_world empty_disk)).2 in
  (claim "42" w).1 = Ret (Some (Pos 10 0)) ∧
  grid_get (grid (claim "42" w).2) 0 10 = Ret (Obj "42") ∧
  userPixels (claim "42" w).2 !! "42"
    = Some (default [] (userPixels w !! "42") ++ [Pos 10 0]).
Proof.
  assert ((claim "42" (claim "42" (initial_world empty_disk)).2).1
          = Ret (Some (Pos 10 0))) as Hr by (vm_compute; reflexivity).
  destruct (claim_frame "42" (claim "42" (initial_world empty_disk)).2
              (Pos 10 0) Hr) as (Hcell & _ & Hown & _).
  split; [exact Hr|]. split; [exact Hcell | exact Hown].
Defined.

(** ** The full canvas *)

Lemma lattice_full_spec (g : Grid) :
  lattice_full g = true ↔
  ∀ m, 0 ≤ m < LATTICE_CELLS → claimed_at g (nth_coordinate m) = true.
Proof.
  unfold lattice_full. rewrite forallb_forall. split.
  - intros H m Hm. apply H. apply list_elem_of_In, elem_of_seqZ. lia.
  - intros H m Hm. apply H. apply list_elem_of_In, elem_of_seqZ in Hm. lia.
Qed.

Lemma scan_full (fid : string) (g : Grid) :
  lattice_full g = true → scan fid g = Ret None.
Proof.
  rewrite lattice_full_spec. intros Hfull.
  pose proof (scan_spec fid g) as Hscan.
  destruct (scan fid g) as [[[p g']|]|e|]; try done.
  - destruct Hscan as (n & Hn & -> & _ & Hfree & _).
    by rewrite Hfull in Hfree.
  - destruct Hscan as (_ & m & Hm & Hnone).
    specialize (Hfull m Hm). unfold claimed_at, grid_get in Hfull.
    by rewrite Hnone in Hfull.
Qed.

(** C4. When every lattice cell is claimed, a further claim returns no
    coordinate as a normal outcome (nothing is thrown), leaves [grid],
    [userPixels], the files and the trace of file operations as they were,
    and is answered with the "no pixels available" text. *)
Theorem full_canvas_claim (fid : string) (w : World) :
  lattice_full (grid w) = true →
  claim fid w = (Ret None, w) ∧
  ∀ url, frame_json None url
         = FrameJson url "Claim Pixel"
             "Sorry, no pixels available. Try again later!".
Proof.
  intros Hfull. split; [|done].
  rewrite claim_cases. by rewrite scan_full.
Qed.

Lemma full_canvas_claim_witness :
  let w := MkWorld (full_grid "7") {["7" := [Pos 0 0]]} empty_disk [] in
  lattice_full (grid w) = true ∧ claim "42" w = (Ret None, w).
Proof.
  assert (lattice_full
            (grid (MkWorld (full_grid "7") {["7" := [Pos 0 0]]} empty_disk []))
          = true) as Hfull by (vm_compute; reflexivity).
  split; [exact Hfull|].
  exact (proj1 (full_canvas_claim "42" _ Hfull)).
Defined.

Lemma run_filled (fids : list string) (k : Z) (w : World) :
  0 ≤ k → filled k (grid w) →
  forallb successful (run fids w).1 = true →
  filled (k + Z.of_nat (length fids)) (grid (run fids w).2).
Proof.
  revert k w. induction fids as [|fid fids IH]; intros k w Hk Hfilled Hall.
  { simpl. by replace (k + Z.of_nat 0) with k by lia. }
  rewrite run_cons in Hall |- *. simpl in Hall |- *.
  apply andb_true_iff in Hall as [Hfirst Hrest].
  destruct (claim fid w).1 as [[p|]|e|] eqn:Hr; try done.
  apply claim_returns in Hr as (Hff & Hg & _).
  destruct (first_free_filled k _ p Hk Hfilled Hff) as [-> Hlt].
  replace (k + Z.of_nat (S (length fids)))
    with (k + 1 + Z.of_nat (length fids)) by lia.
  apply IH; [lia | | done]. rewrite Hg. by apply filled_mark.
Qed.

(** After [LATTICE_CELLS] successful claims from the empty grid the canvas
    is full: the next claim returns no coordinate and changes nothing. *)
Lemma canvas_full_after_all_claims (d : Disk) (fids : list string)
    (fid : string) :
  forallb successful (run fids (initial_world d)).1 = true →
  Z.of_nat (length fids) = LATTICE_CELLS →
  claim fid (run fids (initial_world d)).2
  = (Ret None, (run fids (initial_world d)).2).
Proof.
  intros Hall Hlen. rewrite claim_cases, scan_full; [done|].
  apply lattice_full_spec. intros m Hm.
  rewrite (run_filled fids 0 (initial_world d) ltac:(lia) filled_fresh Hall m Hm).
  apply bool_decide_eq_true. lia.
Qed.

(** ** Claims succeed while there is room *)

Lemma claim_succeeds (fid : string) (w : World) (k : Z) :
  0 ≤ k < LATTICE_CELLS →
  filled k (grid w) →
  length (grid w) = Z.to_nat GRID_SIZE →
  fid ∉ Object_prototype_keys →
  write_error (grid_json (disk w)) = None →
  write_error (user_pixels_json (disk w)) = None →
  (claim fid w).1 = Ret (Some (nth_coordinate k)) ∧
  filled (k + 1) (grid (claim fid w).2) ∧
  length (grid (claim fid w).2) = Z.to_nat GRID_SIZE ∧
  write_error (grid_json (disk (claim fid w).2)) = None ∧
  write_error (user_pixels_json (disk (claim fid w).2)) = None.
Proof.
  intros Hk Hfilled Hrows Hplain Hwg Hwu.
  rewrite claim_cases. pose proof (scan_spec fid (grid w)) as Hscan.
  destruct (scan fid (grid w)) as [[[p g]|]|e|]; try done.
  - destruct Hscan as (n & Hn & Hp & Hbefore & Hfree & Hrow & ->).
    assert (first_free (grid w) p) as Hff by (exists n; done).
    destruct (first_free_filled k _ p ltac:(lia) Hfilled Hff) as [-> _].
    assert (get_property (userPixels w) fid ≠ Inherited) as Hown.
    { unfold get_property. destruct (userPixels w !! fid); [done|].
      by rewrite bool_decide_eq_false_2. }
    set (w2 := MkWorld _ (appended (userPixels w) fid (nth_coordinate k))
                 (disk w) (trace w)).
    assert (saveData w2 = _) as Hsave by exact (saveData_ok w2 Hwg Hwu).
    destruct (get_property (userPixels w) fid); try done;
      cbv zeta; rewrite Hsave; simpl;
      fold (mark (grid w) (nth_coordinate k) fid);
      (repeat split; try done;
       [by apply filled_mark; [lia|..]
       |unfold mark, grid_set; destruct (arr_get _ _);
          by rewrite ?length_insert]).
  - specialize (Hscan k Hk). rewrite Hfilled in Hscan by done.
    apply bool_decide_eq_true in Hscan. lia.
  - destruct Hscan as (_ & m & Hm & Hnone). exfalso.
    apply arr_get_None in Hnone.
    pose proof (nth_coordinate_nonneg m ltac:(lia)) as [_ Hy].
    assert (pos_y (nth_coordinate m) < GRID_SIZE).
    { unfold nth_coordinate, GRID_SIZE, TOKEN_SIZE. simpl.
      change LATTICE_CELLS with 10000 in Hm. Z.div_mod_to_equations. lia. }
    rewrite Hrows in Hnone. lia.
Qed.

(** On a disk that can be written, claims under plain owner names all
    return a coordinate as long as lattice cells remain: the canvas takes
    [LATTICE_CELLS] successful claims. *)
Theorem claims_succeed_while_room (d : Disk) (fids : list string) :
  write_error (grid_json d) = None →
  write_error (user_pixels_json d) = None →
  Forall (λ fid, fid ∉ Object_prototype_keys) fids →
  Z.of_nat (length fids) ≤ LATTICE_CELLS →
  forallb successful (run fids (initial_world d)).1 = true.
Proof.
  intros Hwg Hwu Hplain Hlen.
  assert (∀ k w,
            0 ≤ k → k + Z.of_nat (length fids) ≤ LATTICE_CELLS →
            filled k (grid w) →
            length (grid w) = Z.to_nat GRID_SIZE →
            write_error (grid_json (disk w)) = None →
            write_error (user_pixels_json (disk w)) = None →
            forallb successful (run fids w).1 = true) as Hrun.
  { clear Hlen Hwg Hwu d.
    induction Hplain as [|fid fids Hfid _ IH];
      intros k w Hk Hlen Hfilled Hrows Hwg Hwu; [done|].
    simpl in Hlen. rewrite run_cons. simpl.
    destruct (claim_succeeds fid w k ltac:(lia) Hfilled Hrows Hfid Hwg Hwu)
      as (-> & Hfilled' & Hrows' & Hwg' & Hwu').
    simpl. apply (IH (k + 1)); (done || lia). }
  apply (Hrun 0);
    first [apply filled_fresh | apply length_replicate | done | lia].
Qed.

Lemma claims_succeed_while_room_witness :
  Forall (λ fid, fid ∉ Object_prototype_keys) ["42"; "7"] ∧
  forallb successful (run ["42"; "7"] (initial_world empty_disk)).1 = true.
Proof.
  assert (Forall (λ fid, fid ∉ Object_prototype_keys) ["42"; "7"]) as Hplain.
  { repeat apply Forall_cons_2; try apply Forall_nil_2;
      apply (bool_decide_unpack _); vm_compute; exact I. }
  split; [exact Hplain|].
  apply (claims_succeed_while_room empty_disk ["42"; "7"]);
    [reflexivity | reflexivity | exact Hplain | vm_compute; discriminate].
Defined.

(** ** The claim index *)

(** C3 (failing input). A claim under an owner name that [Object.prototype]
    already defines writes the cell and then throws at [push]: the cell is
    claimed and listed under no owner, so the index no longer matches the
    grid. *)
Theorem inherited_name_breaks_index :
  let w := (claim "constructor" (initial_world empty_disk)).2 in
  (claim "constructor" (initial_world empty_disk)).1 = Throw TypeError ∧
  grid_get (grid w) 0 0 = Ret (Obj "constructor") ∧
  userPixels w = ∅ ∧
  ¬ index_matches_grid w.
Proof.
  assert ((claim "constructor" (initial_world empty_disk)).1 = Throw TypeError)
    as Hr by (vm_compute; reflexivity).
  assert (grid_get (grid (claim "constructor" (initial_world empty_disk)).2) 0 0
          = Ret (Obj "constructor")) as Hcell by (vm_compute; reflexivity).
  assert (userPixels (claim "constructor" (initial_world empty_disk)).2 = ∅)
    as Hindex by (vm_compute; reflexivity).
  repeat split; try done.
  intros [_ Hlisted]. destruct (Hlisted 0 0 "constructor" Hcell) as (l & Hl & _).
  rewrite Hindex in Hl. by rewrite lookup_empty in Hl.
Qed.

Lemma claim_step_index (fid : string) (w w' : World) (r : res (option pos)) :
  fid ∉ Object_prototype_keys →
  claim_step fid w r w' →
  index_matches_grid w → index_matches_grid w'.
Proof.
  intros Hsafe Hstep [Hsound Hcomplete].
  inversion Hstep as [| |p Hff Hnone Hin|p r' w'' Hff _ Hg Hu _]; subst;
    try done.
  pose proof (first_free_unclaimed _ _ Hff) as Hfree.
  assert (∀ pixels, userPixels w !! fid = Some pixels → p ∉ pixels) as Hnew.
  { intros pixels Hpixels Hp.
    destruct (Hsound _ _ Hpixels) as [_ Hcells].
    unfold claimed_at in Hfree. by rewrite (Hcells p Hp) in Hfree. }
  split.
  - intros o pixels. rewrite Hu, Hg. unfold appended.
    destruct (decide (o = fid)) as [->|Hne].
    + rewrite lookup_insert_eq. intros [= <-].
      destruct (userPixels w !! fid) as [old|] eqn:Hold; simpl.
      * destruct (Hsound _ _ Hold) as [Hnodup Hcells]. split.
        -- apply NoDup_app. split; [done|]. split; [|apply NoDup_singleton].
           intros q Hq ->%list_elem_of_singleton. by apply (Hnew old).
        -- intros q [Hq| ->%list_elem_of_singleton]%elem_of_app.
           ++ apply grid_get_mark_claimed; [done|]. by apply Hcells.
           ++ by apply grid_get_mark_eq.
      * split; [apply NoDup_singleton|].
        intros q ->%list_elem_of_singleton. by apply grid_get_mark_eq.
    + rewrite lookup_insert_ne by done. intros Hpixels.
      destruct (Hsound _ _ Hpixels) as [Hnodup Hcells]. split; [done|].
      intros q Hq. apply grid_get_mark_claimed; [done|]. by apply Hcells.
  - intros y x o. rewrite Hu, Hg. unfold appended.
    destruct (decide ((y, x) = (pos_y p, pos_x p))) as [[= -> ->]|Hne].
    + rewrite grid_get_mark_eq by done. intros [= <-].
      rewrite lookup_insert_eq. eexists. split; [done|].
      apply elem_of_app. right. destruct p. by apply list_elem_of_singleton.
    + rewrite grid_get_mark_ne by done. intros Hobj.
      destruct (Hcomplete _ _ _ Hobj) as (pixels & Hpixels & Hin).
      destruct (decide (o = fid)) as [->|Hne'].
      * rewrite lookup_insert_eq, Hpixels. simpl. eexists. split; [done|].
        apply elem_of_app. by left.
      * rewrite lookup_insert_ne by done. eauto.
Qed.

(** The index matches the grid after every sequence of claims from the
    empty state, whatever the saves do, as long as no owner name is a
    property name of [Object.prototype]. *)
Theorem index_matches_grid_for_plain_names (d : Disk) (fids : list string) :
  Forall (λ fid, fid ∉ Object_prototype_keys) fids →
  index_matches_grid (run fids (initial_world d)).2.
Proof.
  assert (index_matches_grid (initial_world d)) as Hinit.
  { split.
    - intros o pixels. simpl. by rewrite lookup_empty.
    - intros y x o Hobj. simpl in Hobj.
      pose proof (fresh_grid_unclaimed (Pos x y)) as Hfree.
      unfold claimed_at in Hfree. simpl in Hfree. by rewrite Hobj in Hfree. }
  revert Hinit. generalize (initial_world d).
  induction fids as [|fid fids IH]; intros w Hw Hsafe; [done|].
  apply Forall_cons in Hsafe as [Hfid Hsafe].
  rewrite run_cons. simpl. apply IH; [|done].
  eapply claim_step_index; [done | apply claim_is_step | done].
Qed.

Lemma index_matches_grid_for_plain_names_witness :
  Forall (λ fid, fid ∉ Object_prototype_keys) ["42"; "7"; "42"] ∧
  index_matches_grid (run ["42"; "7"; "42"] (initial_world empty_disk)).2.
Proof.
  assert (Forall (λ fid, fid ∉ Object_prototype_keys) ["42"; "7"; "42"])
    as Hsafe.
  { repeat apply Forall_cons_2; try apply Forall_nil_2;
      apply (bool_decide_unpack _); vm_compute; exact I. }
  split; [exact Hsafe|].
  exact (index_matches_grid_for_plain_names empty_disk _ Hsafe).
Defined.

(** ** A save that fails *)

(** C5 (counterexample). On a read-only disk the first claim ends with the
    error of the write, and the cell and the index entry it wrote stay:
    the mutation is not rolled back and the write is not tried again. *)
Lemma failed_save_not_rolled_back :
  let w := initial_world readonly_disk in
  let w' := (claim "42" w).2 in
  (claim "42" w).1 = Throw (SystemError "EROFS") ∧
  ¬ (rolled_back w w' ∨ persist_retried w w').
Proof.
  assert (userPixels (claim "42" (initial_world readonly_disk)).2 !! "42"
          = Some [Pos 0 0]) as Hindex by (vm_compute; reflexivity).
  assert (trace (claim "42" (initial_world readonly_disk)).2
          = [WriteFile "grid.json"]) as Htrace by (vm_compute; reflexivity).
  split; [vm_compute; reflexivity|].
  intros [[_ Hu]|[name Hretry]].
  - rewrite Hu in Hindex. simpl in Hindex. by rewrite lookup_empty in Hindex.
  - rewrite Htrace in Hretry. unfold write_attempts in Hretry.
    simpl in Hretry. destruct (bool_decide _); simpl in Hretry; lia.
Qed.

Lemma write_attempts_app (name : string) (tr tr' : list event) :
  write_attempts name (tr ++ tr')
  = (write_attempts name tr + write_attempts name tr')%nat.
Proof.
  unfold write_attempts. by rewrite List.filter_app, length_app.
Qed.

Lemma scan_grid_returns (fid : string) (w : World) (p : pos) :
  (scan_grid fid w).1 = Ret (Some p) →
  first_free (grid w) p ∧ scan fid (grid w) = Ret (Some (p, mark (grid w) p fid)).
Proof.
  unfold scan_grid. pose proof (scan_spec fid (grid w)) as Hscan.
  destruct (scan fid (grid w)) as [[[q g]|]|e|]; try done.
  simpl. intros [= ->].
  destruct Hscan as (n & Hn & Hp & Hbefore & Hfree & Hrow & ->).
  split; [by exists n | done].
Qed.

(** C5 (amended). When the save fails after the scan has written its cell
    and the coordinate has been appended, the claim ends with the error of
    the failed write instead of returning, so no success is reported; the
    cell stays claimed and the coordinate stays in the index; each file is
    written, or tried, at most once. *)
Theorem failed_save_is_thrown (fid : string) (w : World) (p : pos) :
  (scan_grid fid w).1 = Ret (Some p) →
  get_property (userPixels w) fid ≠ Inherited →
  write_error (grid_json (disk w)) ≠ None
    ∨ write_error (user_pixels_json (disk w)) ≠ None →
  (∃ code, (claim fid w).1 = Throw (SystemError code)) ∧
  grid (claim fid w).2 = mark (grid w) p fid ∧
  userPixels (claim fid w).2 = appended (userPixels w) fid p ∧
  ∀ name, (write_attempts name (trace (claim fid w).2)
           ≤ 1 + write_attempts name (trace w))%nat.
Proof.
  intros [Hff Hscan]%scan_grid_returns Hown Hfail.
  rewrite claim_cases, Hscan.
  set (w2 := MkWorld (mark (grid w) p fid) (appended (userPixels w) fid p)
               (disk w) (trace w)).
  assert ((∃ code, (saveData w2).1 = Throw (SystemError code)) ∧
          grid (saveData w2).2 = mark (grid w) p fid ∧
          userPixels (saveData w2).2 = appended (userPixels w) fid p ∧
          ∀ name, (write_attempts name (trace (saveData w2).2)
                   ≤ 1 + write_attempts name (trace w))%nat) as Hsave.
  { destruct (write_error (grid_json (disk w))) as [c|] eqn:Hg.
    - rewrite (saveData_grid_error w2 c Hg). simpl.
      repeat split; eauto. intros name. rewrite write_attempts_app.
      unfold write_attempts at 2. simpl. destruct (bool_decide _); simpl; lia.
    - destruct (write_error (user_pixels_json (disk w))) as [c|] eqn:Hu;
        [|by destruct Hfail].
      rewrite (saveData_user_error w2 c Hg Hu). simpl.
      repeat split; eauto. intros name. rewrite !write_attempts_app.
      unfold write_attempts at 2 3. simpl.
      destruct (bool_decide_reflect ("grid.json" = name)) as [<-|];
        destruct (bool_decide_reflect ("user_pixels.json" = "grid.json"));
        try done; simpl; try lia.
      destruct (bool_decide _); simpl; lia. }
  destruct Hsave as ([c Hc] & Hg & Hu & Htr).
  destruct (get_property (userPixels w) fid) eqn:Hprop; try done;
    simpl; fold w2; rewrite Hc; eauto.
Qed.

Lemma failed_save_is_thrown_witness :
  let w := initial_world readonly_disk in
  (scan_grid "42" w).1 = Ret (Some (Pos 0 0)) ∧
  (∃ code, (claim "42" w).1 = Throw (SystemError code)) ∧
  grid (claim "42" w).2 = mark (grid w) (Pos 0 0) "42".
Proof.
  assert ((scan_grid "42" (initial_world readonly_disk)).1
          = Ret (Some (Pos 0 0))) as Hscan by (vm_compute; reflexivity).
  assert (get_property (userPixels (initial_world readonly_disk)) "42"
          ≠ Inherited) as Hown by (vm_compute; discriminate).
  assert (write_error (grid_json (disk (initial_world readonly_disk))) ≠ None
          ∨ write_error (user_pixels_json (disk (initial_world readonly_disk)))
            ≠ None) as Hfail by (left; vm_compute; discriminate).
  destruct (failed_save_is_thrown "42" (initial_world readonly_disk) (Pos 0 0)
              Hscan Hown Hfail) as (Hthrown & Hgrid & _).
  split; [exact Hscan|]. split; [exact Hthrown | exact Hgrid].
Defined.

(** ** Loading *)

Lemma loadData_grid_failure (w : World) (e : exn) :
  (fs_readFile (grid_json (disk w)) ≫= JSON_parse) = Throw e →
  loadData w =
    (Ret (),
     MkWorld (grid w) (userPixels w) (disk w)
       ((trace w ++ [ReadFile "grid.json"]) ++
        if bool_decide (error_code e ≠ Some "ENOENT")
        then [ConsoleError e] else [])).
Proof.
  intros He. unfold mbind, res_bind in He.
  unfold loadData, try_catch, bind, read_grid_json, emit, lift, ret. simpl.
  destruct (fs_readFile (grid_json (disk w))) as [[g|]|e'|]; simpl in *;
    try done; injection He as <-; [done|].
  destruct (bool_decide _); simpl; by rewrite ?app_nil_r.
Qed.

Lemma loadData_both (w : World) (g : Grid) (u : gmap string (list pos)) :
  fs_readFile (grid_json (disk w)) = Ret (Json g) →
  fs_readFile (user_pixels_json (disk w)) = Ret (Json u) →
  loadData w =
    (Ret (),
     MkWorld g u (disk w)
       ((trace w ++ [ReadFile "grid.json"]) ++ [ReadFile "user_pixels.json"])).
Proof.
  intros Hg Hu.
  unfold loadData, try_catch, bind, read_grid_json, read_user_pixels_json,
    emit, lift, ret, set_grid, set_userPixels. simpl.
  rewrite Hg. simpl. rewrite Hu. done.
Qed.

Lemma loadData_user_failure (w : World) (g : Grid) (e : exn) :
  fs_readFile (grid_json (disk w)) = Ret (Json g) →
  (fs_readFile (user_pixels_json (disk w)) ≫= JSON_parse) = Throw e →
  loadData w =
    (Ret (),
     MkWorld g (userPixels w) (disk w)
       (((trace w ++ [ReadFile "grid.json"]) ++ [ReadFile "user_pixels.json"])
        ++ if bool_decide (error_code e ≠ Some "ENOENT")
           then [ConsoleError e] else [])).
Proof.
  intros Hg He. unfold mbind, res_bind in He.
  unfold loadData, try_catch, bind, read_grid_json, read_user_pixels_json,
    emit, lift, ret, set_grid. simpl.
  rewrite Hg. simpl.
  destruct (fs_readFile (user_pixels_json (disk w))) as [[u|]|e'|]; simpl in *;
    try done; injection He as <-; [done|].
  destruct (bool_decide _); simpl; by rewrite ?app_nil_r.
Qed.

Lemma loadData_returns (w : World) : (loadData w).1 = Ret ().
Proof.
  unfold loadData, try_catch, bind, read_grid_json, read_user_pixels_json,
    emit, lift, ret, set_grid, set_userPixels, fs_readFile. simpl.
  destruct (read_error (grid_json (disk w))) as [c|]; simpl;
    [by destruct (bool_decide _)|].
  destruct (content (grid_json (disk w))) as [[g|]|]; simpl; try done.
  destruct (read_error (user_pixels_json (disk w))) as [c|]; simpl;
    [by destruct (bool_decide _)|].
  by destruct (content (user_pixels_json (disk w))) as [[u|]|].
Qed.

Lemma startup_unfold (w : World) :
  startup w =
    match loadData w with
    | (Ret _, w') =>
        (Ret (), MkWorld (grid w') (userPixels w') (disk w') (trace w' ++ [Listen]))
    | (Throw e, w') => (Throw e, w')
    | (OutOfFuel, w') => (OutOfFuel, w')
    end.
Proof. unfold startup, bind, emit. by destruct (loadData w) as [[[]|e|] w']. Qed.

(** C6 (counterexample). A snapshot that exists and cannot be read does not
    stop the process: the error is logged and the server listens on the
    empty state. *)
Lemma unreadable_snapshot_not_fatal :
  let w := (startup (initial_world unreadable_disk)).2 in
  (startup (initial_world unreadable_disk)).1 = Ret () ∧
  grid w = fresh_grid ∧ userPixels w = ∅ ∧
  trace w = [ReadFile "grid.json"; ConsoleError (SystemError "EACCES"); Listen].
Proof.
  rewrite startup_unfold.
  rewrite (loadData_grid_failure _ (SystemError "EACCES")) by done.
  done.
Qed.

(** C6 (amended). Loading returns the fresh, fully unclaimed grid and the
    empty index when [grid.json] does not exist.  No read failure stops the
    start: every exception of the load is caught, one whose code is not
    [ENOENT] is logged, and the server listens with what was loaded before
    the failure: the fresh state when [grid.json] could not be read or
    parsed, the loaded grid with the empty index when [user_pixels.json]
    could not. *)
Theorem load_failures_are_not_fatal (d : Disk) :
  (startup (initial_world d)).1 = Ret () ∧
  last (trace (startup (initial_world d)).2) = Some Listen ∧
  (content (grid_json d) = None → read_error (grid_json d) = None →
     grid (startup (initial_world d)).2 = fresh_grid ∧
     userPixels (startup (initial_world d)).2 = ∅ ∧
     trace (startup (initial_world d)).2 = [ReadFile "grid.json"; Listen]) ∧
  (∀ e, (fs_readFile (grid_json d) ≫= JSON_parse) = Throw e →
     grid (startup (initial_world d)).2 = fresh_grid ∧
     userPixels (startup (initial_world d)).2 = ∅ ∧
     (error_code e ≠ Some "ENOENT" →
        trace (startup (initial_world d)).2
        = [ReadFile "grid.json"; ConsoleError e; Listen])) ∧
  (∀ g e, fs_readFile (grid_json d) = Ret (Json g) →
     (fs_readFile (user_pixels_json d) ≫= JSON_parse) = Throw e →
     grid (startup (initial_world d)).2 = g ∧
     userPixels (startup (initial_world d)).2 = ∅ ∧
     (error_code e ≠ Some "ENOENT" →
        trace (startup (initial_world d)).2
        = [ReadFile "grid.json"; ReadFile "user_pixels.json";
           ConsoleError e; Listen])).
Proof.
  rewrite startup_unfold.
  pose proof (loadData_returns (initial_world d)) as Hret.
  destruct (loadData (initial_world d)) as [r w'] eqn:Hload.
  simpl in Hret. subst r. simpl.
  split; [done|]. split; [apply last_snoc|].
  split; [|split].
  - intros Hcontent Herror.
    rewrite (loadData_grid_failure (initial_world d) (SystemError "ENOENT"))
      in Hload.
    + injection Hload as <-. done.
    + unfold fs_readFile. simpl. by rewrite Herror, Hcontent.
  - intros e He. rewrite (loadData_grid_failure (initial_world d) e He) in Hload.
    injection Hload as <-. simpl. repeat split.
    intros Hcode. by rewrite bool_decide_eq_true_2.
  - intros g e Hg He.
    rewrite (loadData_user_failure (initial_world d) g e Hg He) in Hload.
    injection Hload as <-. simpl. repeat split.
    intros Hcode. by rewrite bool_decide_eq_true_2.
Qed.

(** ** Saving and loading back *)

Lemma solid_fresh : solid fresh_grid.
Proof.
  apply Forall_forall. intros row [-> _]%elem_of_replicate.
  split; [apply length_replicate|].
  by intros [? _]%elem_of_replicate.
Qed.

Lemma solid_mark (g : Grid) (p : pos) (fid : string) :
  solid g → first_free g p → solid (mark g p fid).
Proof.
  intros Hsolid (n & Hn & -> & _ & _ & [row Hrow]).
  unfold mark, grid_set. rewrite Hrow.
  apply arr_get_Some in Hrow as [Hy Hrow].
  apply Forall_insert; [done|].
  destruct (Forall_lookup_1 _ _ _ _ Hsolid Hrow) as [Hlen Hholes].
  pose proof (nth_coordinate_nonneg n ltac:(lia)) as [Hx _].
  assert (pos_x (nth_coordinate n) < GRID_SIZE) as Hlt.
  { unfold nth_coordinate, GRID_SIZE, TOKEN_SIZE. simpl.
    Z.div_mod_to_equations. lia. }
  unfold arr_set.
  rewrite (bool_decide_eq_false_2 (pos_x (nth_coordinate n) < 0)) by lia.
  rewrite bool_decide_eq_true_2 by lia.
  split; [by rewrite length_insert|].
  intros [j Hj]%list_elem_of_lookup.
  destruct (decide (Z.to_nat (pos_x (nth_coordinate n)) = j)) as [<-|Hne].
  - by rewrite list_lookup_insert_eq in Hj by lia.
  - rewrite list_lookup_insert_ne in Hj by done.
    apply Hholes, list_elem_of_lookup. eauto.
Qed.

Lemma claim_step_solid (fid : string) (w w' : World) (r : res (option pos)) :
  claim_step fid w r w' → solid (grid w) → solid (grid w').
Proof.
  intros Hstep Hsolid.
  inversion Hstep as [| |p Hff|p r' w'' Hff _ Hg]; subst; try done.
  - simpl. by apply solid_mark.
  - rewrite Hg. by apply solid_mark.
Qed.

Lemma reachable_solid (w : World) : reachable w → solid (grid w).
Proof.
  intros (d & fids & ->).
  assert (solid (grid (initial_world d))) as Hinit by apply solid_fresh.
  revert Hinit. generalize (initial_world d).
  induction fids as [|fid fids IH]; intros w Hw; [done|].
  rewrite run_cons. simpl. apply IH.
  eapply claim_step_solid; [apply claim_is_step | done].
Qed.

(** The text written for a grid without [undefined] elements parses back to
    the same grid. *)
Lemma JSON_stringify_grid_solid (g : Grid) :
  solid g → JSON_stringify_grid g = Json g.
Proof.
  intros Hsolid. unfold JSON_stringify_grid. f_equal.
  induction Hsolid as [|row g [_ Hholes] _ IH]; [done|].
  simpl. f_equal; [|done].
  clear -Hholes. induction row as [|c row IH]; [done|].
  simpl. f_equal.
  - destruct c; try done. exfalso. apply Hholes. by left.
  - apply IH. intros Hin. apply Hholes. by right.
Qed.

Lemma saveData_same (w1 w2 : World) :
  same_memory w1 w2 →
  (saveData w1).1 = (saveData w2).1 ∧
  same_memory (saveData w1).2 (saveData w2).2.
Proof.
  intros (Hg & Hu & Hwg & Hwu).
  destruct (write_error (grid_json (disk w1))) as [c|] eqn:H1.
  { rewrite (saveData_grid_error w1 c H1).
    rewrite (saveData_grid_error w2 c) by congruence.
    unfold same_memory. simpl. repeat split; congruence. }
  destruct (write_error (user_pixels_json (disk w1))) as [c|] eqn:H2.
  { rewrite (saveData_user_error w1 c H1 H2).
    rewrite (saveData_user_error w2 c) by congruence.
    unfold same_memory. simpl. repeat split; congruence. }
  rewrite (saveData_ok w1 H1 H2).
  rewrite (saveData_ok w2) by congruence.
  unfold same_memory. simpl. repeat split; congruence.
Qed.

Lemma claim_same (fid : string) (w1 w2 : World) :
  same_memory w1 w2 →
  (claim fid w1).1 = (claim fid w2).1 ∧
  same_memory (claim fid w1).2 (claim fid w2).2.
Proof.
  intros Hsame. pose proof Hsame as (Hg & Hu & Hwg & Hwu).
  rewrite !claim_cases. rewrite <- Hg, <- Hu.
  destruct (scan fid (grid w1)) as [[[p g]|]|e|]; simpl; try done.
  assert (same_memory
            (MkWorld g (appended (userPixels w1) fid p) (disk w1) (trace w1))
            (MkWorld g (appended (userPixels w1) fid p) (disk w2) (trace w2)))
    as Hsame2 by done.
  apply saveData_same in Hsame2 as [Hr Hw].
  destruct (get_property (userPixels w1) fid); simpl; try done;
    by rewrite Hr.
Qed.

Lemma run_same (fids : list string) (w1 w2 : World) :
  same_memory w1 w2 → (run fids w1).1 = (run fids w2).1.
Proof.
  revert w1 w2. induction fids as [|fid fids IH]; intros w1 w2 Hsame; [done|].
  rewrite !run_cons. simpl.
  destruct (claim_same fid w1 w2 Hsame) as [-> Hsame'].
  f_equal. by apply IH.
Qed.

(** C9. For every reachable state, saving it and loading the snapshot back
    in a new process gives the same [grid] and [userPixels], and every
    sequence of claims has the same outcomes on the reloaded state as on the
    state before the save. *)
Theorem snapshot_round_trip (w : World) (fids : list string) :
  reachable w →
  (saveData w).1 = Ret () →
  read_error (grid_json (disk w)) = None →
  read_error (user_pixels_json (disk w)) = None →
  grid (startup (initial_world (disk (saveData w).2))).2 = grid w ∧
  userPixels (startup (initial_world (disk (saveData w).2))).2 = userPixels w ∧
  (run fids (startup (initial_world (disk (saveData w).2))).2).1
  = (run fids w).1.
Proof.
  intros Hreach Hsaved Hrg Hru.
  assert (write_error (grid_json (disk w)) = None ∧
          write_error (user_pixels_json (disk w)) = None) as [Hwg Hwu].
  { destruct (write_error (grid_json (disk w))) as [c|] eqn:H1.
    { by rewrite (saveData_grid_error w c H1) in Hsaved. }
    destruct (write_error (user_pixels_json (disk w))) as [c|] eqn:H2.
    { by rewrite (saveData_user_error w c H1 H2) in Hsaved. }
    done. }
  rewrite (saveData_ok w Hwg Hwu). simpl.
  rewrite (JSON_stringify_grid_solid _ (reachable_solid w Hreach)).
  rewrite startup_unfold.
  rewrite (loadData_both _ (grid w) (userPixels w));
    [|by unfold fs_readFile; simpl; rewrite ?Hrg, ?Hru..].
  simpl. split; [done|]. split; [done|].
  apply run_same. by repeat split.
Qed.

Lemma snapshot_round_trip_witness :
  let w := (run ["42"; "7"] (initial_world empty_disk)).2 in
  reachable w ∧
  (saveData w).1 = Ret () ∧
  (run ["9"; "42"] (startup (initial_world (disk (saveData w).2))).2).1
  = (run ["9"; "42"] w).1.
Proof.
  assert (reachable (run ["42"; "7"] (initial_world empty_disk)).2) as Hreach
    by (exists empty_disk, ["42"; "7"]; reflexivity).
  assert ((saveData (run ["42"; "7"] (initial_world empty_disk)).2).1 = Ret ())
    as Hsaved by (vm_compute; reflexivity).
  assert (read_error
            (grid_json (disk (run ["42"; "7"] (initial_world empty_disk)).2))
          = None) as Hrg by (vm_compute; reflexivity).
  assert (read_error
            (user_pixels_json
               (disk (run ["42"; "7"] (initial_world empty_disk)).2))
          = None) as Hru by (vm_compute; reflexivity).
  split; [exact Hreach|]. split; [exact Hsaved|].
  exact (proj2 (proj2 (snapshot_round_trip _ ["9"; "42"]
                         Hreach Hsaved Hrg Hru))).
Defined.

(** ** The highlight *)

(** [scanQuiet] at [NaN] visits nothing: with [undefined] coordinates the
    branch of line 74 is taken and leaves the image as it is. *)
Lemma highlight_undefined `{Lib} (img : image buffer) :
  highlight JUndefined JUndefined img = Ret img.
Proof. by destruct img. Qed.

Lemma scan_pixels_first (width x y : Z) :
  ∃ rest,
    scan_pixels width (Num x) (Num y) scaledTokenSize scaledTokenSize
    = (x, y, shl2 (width * y + x)) :: rest.
Proof.
  unfold scan_pixels. change scaledTokenSize with 12.
  rewrite (seqZ_cons y) by lia. rewrite bind_cons.
  rewrite (seqZ_cons x) by lia. rewrite bind_cons. simpl. eauto.
Qed.

Lemma generateImage_no_position `{Lib} (g : Grid) :
  generateImage g (opt_x None) (opt_y None) = generateImage g JNull JNull.
Proof.
  unfold generateImage, opt_x, opt_y.
  destruct (paint_tiles g _) as [painted| |]; [|done..].
  unfold mbind at 1 4, res_bind at 1 4.
  by rewrite highlight_undefined.
Qed.

(** The check of the signature: the hub's answer, and its exception logged
    and counted as invalid. *)
Lemma verifyFarcasterMessage_cases `{Lib} (messageBytes : string) (w : World) :
  verifyFarcasterMessage messageBytes w =
    match hub_validateMessage messageBytes with
    | Returns valid => (Ret valid, w)
    | Throws e =>
        (Ret false,
         MkWorld (grid w) (userPixels w) (disk w) (trace w ++ [ConsoleError e]))
    end.
Proof.
  unfold verifyFarcasterMessage, try_catch, lift, bind, emit, ret.
  by destruct (hub_validateMessage messageBytes).
Qed.

Lemma verifyFarcasterMessage_true `{Lib} (messageBytes : string) (w : World) :
  (verifyFarcasterMessage messageBytes w).1 = Ret true ↔
  hub_validateMessage messageBytes = Returns true.
Proof.
  rewrite verifyFarcasterMessage_cases.
  destruct (hub_validateMessage messageBytes) as [[]|e]; simpl;
    split; intros; by simplify_eq.
Qed.

Lemma post_api_frame_valid `{Lib} (messageBytes fid : string) (w : World) :
  hub_validateMessage messageBytes = Returns true →
  post_api_frame messageBytes fid w =
    match claim fid w with
    | (Ret claimedPosition, w') =>
        (png ← generateImage (grid w') (opt_x claimedPosition)
                 (opt_y claimedPosition);
         mret (Response 200
                 (frame_json claimedPosition
                    ("data:image/png;base64," +:+ Buffer_toString_base64 png))),
         w')
    | (Throw e, w') => (Throw e, w')
    | (OutOfFuel, w') => (OutOfFuel, w')
    end.
Proof.
  intros Hvalid. unfold post_api_frame, bind at 1.
  rewrite verifyFarcasterMessage_cases, Hvalid. cbn [negb].
  unfold bind, lift, ret.
  destruct (claim fid w) as [[claimedPosition|e|] w']; [|done..].
  by destruct (generateImage _ _ _).
Qed.

(** The answer of POST /api/frame on a full canvas: no state changes, and
    the image is the one GET /frame-image renders. *)
Lemma post_api_frame_full `{Lib} (messageBytes fid : string) (w : World) :
  hub_validateMessage messageBytes = Returns true →
  lattice_full (grid w) = true →
  post_api_frame messageBytes fid w =
    (png ← generateImage (grid w) JNull JNull;
     mret (Response 200
             (FrameJson ("data:image/png;base64," +:+ Buffer_toString_base64 png)
                "Claim Pixel" "Sorry, no pixels available. Try again later!")),
     w).
Proof.
  intros Hvalid Hfull. rewrite (post_api_frame_valid _ _ _ Hvalid).
  assert (claim fid w = (Ret None, w)) as ->
    by (rewrite claim_cases; by rewrite scan_full).
  by rewrite generateImage_no_position.
Qed.

(** A request whose signature does not verify is answered with status 400
    and claims nothing; an exception of the hub is logged. *)
Lemma post_api_frame_invalid `{Lib} (messageBytes fid : string) (w : World) :
  hub_validateMessage messageBytes ≠ Returns true →
  post_api_frame messageBytes fid w
  = (Ret (Response 400 (ErrorJson "Invalid Farcaster signature")),
     MkWorld (grid w) (userPixels w) (disk w)
       (trace w ++ match hub_validateMessage messageBytes with
                   | Throws e => [ConsoleError e]
                   | Returns _ => []
                   end)).
Proof.
  intros Hinvalid. unfold post_api_frame, bind at 1.
  rewrite verifyFarcasterMessage_cases.
  destruct (hub_validateMessage messageBytes) as [[]|e]; [done| |done].
  rewrite app_nil_r. by destruct w.
Qed.

(** ** The loops end

    With [LOOP_FUEL] iterations granted to each loop, no handler stops for
    lack of fuel: each one returns or throws. *)

Lemma call_fuel {A} (o : outcome A) : call o ≠ OutOfFuel.
Proof. by destruct o. Qed.

Lemma bind_fuel {A B} (r : res A) (k : A → res B) :
  r ≠ OutOfFuel → (∀ a, k a ≠ OutOfFuel) → (r ≫= k) ≠ OutOfFuel.
Proof. intros Hr Hk. destruct r; [apply Hk | done..]. Qed.

Lemma for_loop_fuel {S} (fuel : nat) (i stop step : Z)
    (body : Z → S → res S) (s : S) :
  0 < step →
  stop + step ≤ i + step * Z.of_nat fuel →
  i < stop + step →
  (∀ j s, body j s ≠ OutOfFuel) →
  for_loop fuel i stop step body s ≠ OutOfFuel.
Proof.
  intros Hstep Hfuel Hi Hbody. revert i s Hfuel Hi.
  induction fuel as [|fuel IH]; intros i s Hfuel Hi; [lia|].
  simpl. destruct (bool_decide_reflect (i < stop)); [|done].
  apply bind_fuel; [apply Hbody|].
  intros s'. apply IH; lia.
Qed.

Lemma fold_res_fuel {A B} (f : A → B → res A) (a : A) (l : list B) :
  (∀ a b, f a b ≠ OutOfFuel) → fold_res f a l ≠ OutOfFuel.
Proof.
  intros Hf. revert a. induction l as [|b l IH]; intros a; [done|].
  simpl. by apply bind_fuel.
Qed.

Lemma scanQuiet_fuel `{Lib} (img : image buffer) (x y : num) (w h : Z)
    (f : buffer → Z → Z → Z → res buffer) :
  (∀ data _x _y idx, f data _x _y idx ≠ OutOfFuel) →
  scanQuiet img x y w h f ≠ OutOfFuel.
Proof.
  intros Hf. unfold scanQuiet. apply bind_fuel; [|done].
  apply fold_res_fuel. by intros data [[_x _y] idx].
Qed.

Lemma generateImage_fuel `{Lib} (g : Grid) (newPixelX newPixelY : jsarg) :
  generateImage g newPixelX newPixelY ≠ OutOfFuel.
Proof.
  unfold generateImage. apply bind_fuel.
  { unfold paint_tiles. apply for_loop_fuel; [arith..|].
    intros y img. apply for_loop_fuel; [arith..|].
    intros x img'. apply bind_fuel; [unfold grid_get; by destruct (arr_get g y)|].
    intros c. apply scanQuiet_fuel. intros. apply call_fuel. }
  intros painted. apply bind_fuel.
  { unfold highlight. destruct (_ && _); [|done].
    apply scanQuiet_fuel. intros. unfold blend_pixel.
    apply bind_fuel; [apply call_fuel|]. intros base.
    apply bind_fuel; [apply call_fuel|]. intros blended. apply call_fuel. }
  intros highlighted. apply bind_fuel; [apply call_fuel|].
  intros printed. apply call_fuel.
Qed.

Lemma claim_fuel (fid : string) (w : World) : (claim fid w).1 ≠ OutOfFuel.
Proof.
  pose proof (claim_is_step fid w) as Hstep.
  inversion Hstep as [Hfull Hr|Hr|p Hff Hnone Hin Hr|p r w' Hff _ _ _ Hr];
    try done.
  destruct Hr as [->|[code ->]]; done.
Qed.

(** No handler runs out of loop fuel. *)
Theorem handlers_return_or_throw `{Lib} (messageBytes fid : string)
    (w : World) :
  (post_api_frame messageBytes fid w).1 ≠ OutOfFuel ∧
  (get_frame_image w).1 ≠ OutOfFuel ∧
  (startup w).1 ≠ OutOfFuel.
Proof.
  split; [|split].
  - assert (hub_validateMessage messageBytes = Returns true ∨
            hub_validateMessage messageBytes ≠ Returns true)
      as [Hvalid|Hinvalid]
      by (destruct (hub_validateMessage messageBytes) as [[]|e]; auto).
    2:{ by rewrite (post_api_frame_invalid _ _ _ Hinvalid). }
    rewrite (post_api_frame_valid _ _ _ Hvalid).
    pose proof (claim_fuel fid w) as Hclaim.
    destruct (claim fid w) as [[claimedPosition|e|] w']; try done.
    pose proof (generateImage_fuel (grid w') (opt_x claimedPosition)
                  (opt_y claimedPosition)) as Himage.
    by destruct (generateImage _ _ _).
  - unfold get_frame_image, try_catch, bind, lift, ret, emit.
    pose proof (generateImage_fuel (grid w) JNull JNull) as Himage.
    by destruct (generateImage _ _ _).
  - rewrite startup_unfold. pose proof (loadData_returns w) as Hload.
    destruct (loadData w) as [r w']. simpl in Hload. by subst r.
Qed.

(** ** The highlight *)

(** With a position, the highlight calls [Jimp.blend] for the first pixel
    of the rectangle before it writes anything. *)
Lemma highlight_throws `{Lib} (p : pos) (img : image buffer) :
  blend_undefined →
  ∃ e, highlight (opt_x (Some p)) (opt_y (Some p)) img = Throw e.
Proof.
  intros Hblend.
  assert (∀ color data _x _y idx,
            ∃ e, blend_pixel color data _x _y idx = Throw e) as Hpixel.
  { intros color data _x _y idx. unfold blend_pixel.
    destruct (readUInt32BE data idx) as [base|e]; simpl; [|by exists e].
    rewrite Hblend. by exists TypeError. }
  unfold highlight, opt_x, opt_y, scale, scanQuiet. cbn [not_null andb].
  destruct (scan_pixels_first (bitmap_width img)
              (pos_x p * WIDTH / GRID_SIZE) (pos_y p * WIDTH / GRID_SIZE))
    as [rest ->].
  cbn [fold_res].
  destruct (Hpixel (Jimp_rgbaToInt 255 255 0 128) (bitmap_data img)
              (pos_x p * WIDTH / GRID_SIZE) (pos_y p * WIDTH / GRID_SIZE)
              (shl2 (bitmap_width img * (pos_y p * WIDTH / GRID_SIZE)
                     + pos_x p * WIDTH / GRID_SIZE))) as [e ->].
  by exists e.
Qed.

(** C7. The highlight is never blended.  Line 80 calls [Jimp.blend] for the
    first pixel of the claimed tile's rectangle, before anything is
    written; in a library that does not define it the call throws.  Then a
    render with a position throws, whatever the grid and the image painted
    so far, and POST /api/frame ends with that exception after every claim
    that returned a coordinate, in the state the claim left; a render
    without a position does not reach the call and leaves the painted image
    as it is. *)
Theorem highlight_never_blends `{Lib} (g : Grid) (p : pos)
    (img : image buffer) :
  blend_undefined →
  (∃ e, highlight (opt_x (Some p)) (opt_y (Some p)) img = Throw e) ∧
  (∃ e, generateImage g (opt_x (Some p)) (opt_y (Some p)) = Throw e) ∧
  (∀ messageBytes fid w,
     (verifyFarcasterMessage messageBytes w).1 = Ret true →
     (claim fid w).1 = Ret (Some p) →
     ∃ e, post_api_frame messageBytes fid w = (Throw e, (claim fid w).2)) ∧
  highlight (opt_x None) (opt_y None) img = Ret img.
Proof.
  intros Hblend.
  assert (∀ g', ∃ e, generateImage g' (opt_x (Some p)) (opt_y (Some p))
                     = Throw e) as Hrender.
  { intros g'.
    pose proof (generateImage_fuel g' (opt_x (Some p)) (opt_y (Some p)))
      as Hfuel.
    unfold generateImage in *.
    destruct (paint_tiles g' _) as [painted|e|]; [|by exists e|done].
    destruct (highlight_throws p painted Hblend) as [e He].
    exists e. unfold mbind, res_bind. cbv beta iota. by rewrite He. }
  split; [by apply highlight_throws|]. split; [apply Hrender|].
  split; [|apply highlight_undefined].
  intros messageBytes fid w Hvalid%verifyFarcasterMessage_true Hclaim.
  rewrite (post_api_frame_valid _ _ _ Hvalid).
  destruct (claim fid w) as [r w'] eqn:Hc. simpl in Hclaim. subst r.
  destruct (Hrender (grid w')) as [e He]. exists e. by rewrite He.
Qed.

Lemma highlight_never_blends_witness :
  ∃ e,
    @post_api_frame jimp_without_blend "message" "42"
      (initial_world empty_disk)
    = (Throw e, (claim "42" (initial_world empty_disk)).2).
Proof.
  assert (@blend_undefined jimp_without_blend) as Hblend by (intros ??; done).
  assert ((claim "42" (initial_world empty_disk)).1 = Ret (Some (Pos 0 0)))
    as Hclaim by (vm_compute; reflexivity).
  destruct (@highlight_never_blends jimp_without_blend fresh_grid (Pos 0 0)
              (Image WIDTH HEIGHT ()) Hblend) as (_ & _ & Hpost & _).
  exact (Hpost "message" "42" (initial_world empty_disk) eq_refl Hclaim).
Defined.

(** ** The colour of the first tile *)

(** At the origin the arguments of [Math.sin] are [+0], so
    [generatePixelColor] packs the channels (128, 128, 128, 255) for a
    claimed tile and (225, 225, 225, 255) for an unclaimed one. *)
Theorem tile_colour_at_origin `{Lib} :
  generatePixelColor 0 0 true = Jimp_rgbaToInt 128 128 128 255 ∧
  generatePixelColor 0 0 false = Jimp_rgbaToInt 225 225 225 255.
Proof.
  unfold generatePixelColor.
  change (0.3 * number 0)%float with 0%float.
  change (0.3 * number (0 + 0))%float with 0%float.
  change (0.1 * number (0 + 0))%float with 0%float.
  rewrite Math_sin_0.
  change (0 * 127 + 128)%float with 128%float.
  change (0 * 30 + 225)%float with 225%float.
  done.
Qed.

(** ** The scenarios of the specification *)

(** A claim by "42" on the empty grid returns (0, 0) and is indexed. *)
Example first_claim :
  (claim "42" (initial_world empty_disk)).1 = Ret (Some (Pos 0 0)) ∧
  userPixels (claim "42" (initial_world empty_disk)).2 !! "42"
  = Some [Pos 0 0].
Proof. split; vm_compute; reflexivity. Qed.

(** Two claims by the same identity land at (0, 0), then at (10, 0). *)
Example two_claims :
  (run ["42"; "42"] (initial_world empty_disk)).1
  = [Ret (Some (Pos 0 0)); Ret (Some (Pos 10 0))] ∧
  userPixels (run ["42"; "42"] (initial_world empty_disk)).2 !! "42"
  = Some [Pos 0 0; Pos 10 0].
Proof. split; vm_compute; reflexivity. Qed.

(** The hundredth claim starts the second row of tiles. *)
Example second_row : nth_coordinate 100 = Pos 0 10.
Proof. reflexivity. Qed.

(** * Further properties of the code *)

(** ** What a claim returns, in any state *)

Lemma on_lattice_nth (p : pos) :
  on_lattice p ↔ ∃ n, 0 ≤ n < LATTICE_CELLS ∧ p = nth_coordinate n.
Proof.
  destruct p as [x y]. unfold on_lattice, nth_coordinate. simpl. split.
  - intros (Hx & Hxm & Hy & Hym).
    exists (100 * (y / 10) + x / 10). consts.
    split; [Z.div_mod_to_equations; lia|].
    f_equal; Z.div_mod_to_equations; lia.
  - intros (n & Hn & [= -> ->]). consts. Z.div_mod_to_equations. lia.
Qed.

Lemma row_major_nth (m n : Z) :
  0 ≤ m → 0 ≤ n →
  row_major_before (nth_coordinate m) (nth_coordinate n) ↔ m < n.
Proof.
  intros Hm Hn. unfold row_major_before, nth_coordinate. simpl. consts.
  Z.div_mod_to_equations. lia.
Qed.

(** In every state, a claim that returns a coordinate returns a lattice
    coordinate inside the grid whose cell was not claimed, and every lattice
    cell that the scan visits before it was claimed: the first free tile in
    row-major order, whoever claims and whatever else the grid holds. *)
Theorem claim_returns_first_unclaimed (fid : string) (w : World) (p : pos) :
  (claim fid w).1 = Ret (Some p) →
  on_lattice p ∧
  claimed_at (grid w) p = false ∧
  ∀ q, on_lattice q → row_major_before q p → claimed_at (grid w) q = true.
Proof.
  intros (Hff & _)%claim_returns.
  destruct Hff as (n & Hn & -> & Hbefore & Hfree & _).
  split; [apply on_lattice_nth; eauto|]. split; [done|].
  intros q (m & Hm & ->)%on_lattice_nth Hqp.
  apply Hbefore. apply row_major_nth in Hqp; lia.
Qed.

Lemma claim_returns_first_unclaimed_witness :
  let w := (claim "7" (initial_world empty_disk)).2 in
  (claim "42" w).1 = Ret (Some (Pos 10 0)) ∧
  on_lattice (Pos 10 0) ∧
  claimed_at (grid w) (Pos 10 0) = false.
Proof.
  assert ((claim "42" (claim "7" (initial_world empty_disk)).2).1
          = Ret (Some (Pos 10 0))) as Hr by (vm_compute; reflexivity).
  destruct (claim_returns_first_unclaimed "42" _ (Pos 10 0) Hr)
    as (Hlat & Hfree & _).
  split; [exact Hr|]. split; [exact Hlat | exact Hfree].
Defined.

(** A claim answers that no pixel is available only when every lattice
    cell is claimed, and it then leaves the whole state as it was. *)
Theorem no_room_only_when_full (fid : string) (w : World) :
  (claim fid w).1 = Ret None →
  lattice_full (grid w) = true ∧ (claim fid w).2 = w.
Proof.
  rewrite claim_cases. pose proof (scan_spec fid (grid w)) as Hscan.
  destruct (scan fid (grid w)) as [[[p g]|]|e|]; try done.
  - destruct (get_property (userPixels w) fid); simpl; by repeat case_match.
  - intros _. split; [by apply lattice_full_spec | done].
Qed.

Lemma no_room_only_when_full_witness :
  let w := MkWorld (full_grid "7") {["7" := [Pos 0 0]]} empty_disk [] in
  (claim "42" w).1 = Ret None ∧ (claim "42" w).2 = w.
Proof.
  assert ((claim "42" (MkWorld (full_grid "7") {["7" := [Pos 0 0]]}
                         empty_disk [])).1 = Ret None) as Hr
    by (vm_compute; reflexivity).
  split; [exact Hr|].
  exact (proj2 (no_room_only_when_full "42" _ Hr)).
Defined.

Lemma length_mark (g : Grid) (p : pos) (fid : string) :
  length (mark g p fid) = length g.
Proof.
  unfold mark, grid_set.
  destruct (arr_get g (pos_y p)); [by rewrite length_insert | done].
Qed.

Lemma reachable_length (w : World) :
  reachable w → length (grid w) = Z.to_nat GRID_SIZE.
Proof.
  intros (d & fids & ->).
  assert (length (grid (initial_world d)) = Z.to_nat GRID_SIZE) as Hinit
    by exact (length_replicate _ _).
  revert Hinit. generalize (initial_world d).
  induction fids as [|f fids IH]; intros w Hw; [done|].
  rewrite run_cons. simpl. apply IH.
  pose proof (claim_is_step f w) as Hstep. clear IH. revert Hstep.
  generalize (claim f w).1 (claim f w).2. intros r w' Hstep.
  destruct Hstep as [| |p Hff Hf Hkey|p r w' Hff Hown Hgrid Hindex];
    try done.
  - simpl. by rewrite length_mark.
  - by rewrite Hgrid, length_mark.
Qed.

Lemma reachable_inherited (w : World) (fid : string) :
  reachable w → fid ∈ Object_prototype_keys → userPixels w !! fid = None.
Proof.
  intros (d & fids & ->) Hin.
  assert (userPixels (initial_world d) !! fid = None) as Hinit
    by apply lookup_empty.
  revert Hinit. generalize (initial_world d).
  induction fids as [|f fids IH]; intros w Hw; [done|].
  rewrite run_cons. simpl. apply IH.
  pose proof (claim_is_step f w) as Hstep. clear IH. revert Hstep.
  generalize (claim f w).1 (claim f w).2. intros r w' Hstep.
  destruct Hstep as [| |p Hff Hf Hkey|p r w' Hff Hown _ Hindex];
    try done.
  rewrite Hindex. unfold appended.
  destruct (decide (f = fid)) as [->|Hne]; [by destruct (Hown Hw)|].
  by rewrite lookup_insert_ne.
Qed.

(** In a state reached by claims from the empty state the scan finds every
    row of the lattice: it returns the first free cell, or none when the
    lattice is full. *)
Lemma reachable_scan (fid : string) (w : World) :
  reachable w →
  if lattice_full (grid w) then scan fid (grid w) = Ret None
  else ∃ p, first_free (grid w) p ∧
         scan fid (grid w) = Ret (Some (p, mark (grid w) p fid)).
Proof.
  intros Hlen%reachable_length.
  destruct (lattice_full (grid w)) eqn:Hfull; [by apply scan_full|].
  pose proof (scan_spec fid (grid w)) as Hscan.
  destruct (scan fid (grid w)) as [[[p g]|]|e|]; try done.
  - destruct Hscan as (n & Hn & Hp & Hbefore & Hfree & Hrow & ->).
    exists p. split; [by exists n | done].
  - apply lattice_full_spec in Hscan. congruence.
  - destruct Hscan as (_ & m & Hm & Hnone).
    apply arr_get_None in Hnone.
    pose proof (nth_coordinate_nonneg m ltac:(lia)) as [_ Hy].
    assert (pos_y (nth_coordinate m) < GRID_SIZE)
      by (unfold nth_coordinate; simpl; consts; Z.div_mod_to_equations; lia).
    rewrite Hlen in Hnone. unfold GRID_SIZE in *. lia.
Qed.

(** When a claim throws.  In a state reached by claims from the empty
    state, a claim under an owner name throws exactly when a lattice cell is
    free and either the name is a property name of [Object.prototype], and
    the exception is the [TypeError] of line 199, or the name is not and a
    write fails, and the exception is the error of the write of
    [grid.json], or of the write of [user_pixels.json] when [grid.json] was
    written. *)
Theorem claim_throws_exactly_when (fid : string) (w : World) (e : exn) :
  reachable w →
  (claim fid w).1 = Throw e ↔
  lattice_full (grid w) = false ∧
  ((fid ∈ Object_prototype_keys ∧ e = TypeError) ∨
   ((fid ∉ Object_prototype_keys) ∧
    ∃ code, e = SystemError code ∧
      (write_error (grid_json (disk w)) = Some code ∨
       (write_error (grid_json (disk w)) = None ∧
        write_error (user_pixels_json (disk w)) = Some code)))).
Proof.
  intros Hreach. pose proof (reachable_scan fid w Hreach) as Hscan.
  rewrite claim_cases.
  destruct (lattice_full (grid w)).
  { rewrite Hscan. split; [done | by intros [? _]]. }
  destruct Hscan as (p & Hff & ->).
  set (w2 := MkWorld (mark (grid w) p fid) (appended (userPixels w) fid p)
               (disk w) (trace w)).
  unfold get_property.
  destruct (decide (fid ∈ Object_prototype_keys)) as [Hin|Hplain].
  - rewrite (reachable_inherited w fid Hreach Hin).
    rewrite bool_decide_eq_true_2 by done. simpl. split.
    + intros [= <-]. split; [done|]. by left.
    + intros (_ & [[_ ->]|[Hplain _]]); done.
  - assert (match userPixels w !! fid with
            | Some pixels => Own pixels
            | None => if bool_decide (fid ∈ Object_prototype_keys)
                      then Inherited else Undefined
            end ≠ Inherited) as Hown.
    { destruct (userPixels w !! fid); [done|].
      by rewrite bool_decide_eq_false_2. }
    assert ((saveData w2).1 = Throw e ↔
            ∃ code, e = SystemError code ∧
              (write_error (grid_json (disk w)) = Some code ∨
               (write_error (grid_json (disk w)) = None ∧
                write_error (user_pixels_json (disk w)) = Some code)))
      as Hsave.
    { destruct (write_error (grid_json (disk w))) as [c|] eqn:Hg.
      { rewrite (saveData_grid_error w2 c Hg). simpl. split.
        - intros [= <-]. eauto.
        - intros (code & -> & [[= ->]|[? _]]); done. }
      destruct (write_error (user_pixels_json (disk w))) as [c|] eqn:Hu.
      { rewrite (saveData_user_error w2 c Hg Hu). simpl. split.
        - intros [= <-]. eauto.
        - intros (code & -> & [?|[_ [= ->]]]); done. }
      rewrite (saveData_ok w2 Hg Hu). simpl. split; [done|].
      intros (code & _ & [?|[_ ?]]); done. }
    assert ((match (saveData w2).1 with
             | Ret _ => Ret (Some p)
             | Throw e0 => Throw e0
             | OutOfFuel => OutOfFuel
             end = Throw e) ↔ (saveData w2).1 = Throw e) as Hmatch.
    { generalize (saveData w2).1. intros [a|e0|]; split; intros; by simplify_eq. }
    destruct (match userPixels w !! fid with
              | Some pixels => Own pixels
              | None => _
              end) eqn:Hprop; [| done |];
      cbv zeta; fold w2; simpl; rewrite Hmatch, Hsave; split;
      [ intros Hcode; split; [done|]; by right
      | intros (_ & [[? _]|[_ Hcode]]); done
      | intros Hcode; split; [done|]; by right
      | intros (_ & [[? _]|[_ Hcode]]); done ].
Qed.

Lemma claim_throws_exactly_when_witness :
  reachable (initial_world readonly_disk) ∧
  (claim "42" (initial_world readonly_disk)).1 = Throw (SystemError "EROFS") ∧
  (claim "toString" (initial_world readonly_disk)).1 = Throw TypeError.
Proof.
  assert (reachable (initial_world readonly_disk)) as Hreach
    by (exists readonly_disk, []; reflexivity).
  assert (lattice_full (grid (initial_world readonly_disk)) = false) as Hroom.
  { apply not_true_is_false. intros Hfull.
    pose proof (proj1 (lattice_full_spec _) Hfull 0 ltac:(arith)) as Hzero.
    by rewrite fresh_grid_unclaimed in Hzero. }
  assert ("42" ∉ Object_prototype_keys) as Hplain
    by (apply (bool_decide_unpack _); vm_compute; exact I).
  assert ("toString" ∈ Object_prototype_keys) as Hin
    by (apply (bool_decide_unpack _); vm_compute; exact I).
  split; [exact Hreach|]. split.
  - apply (claim_throws_exactly_when "42" _ _ Hreach).
    split; [exact Hroom|]. right. split; [exact Hplain|].
    exists "EROFS". split; [reflexivity|]. left. reflexivity.
  - apply (claim_throws_exactly_when "toString" _ _ Hreach).
    split; [exact Hroom|]. left. split; [exact Hin | reflexivity].
Defined.

(** ** The query of an owner's pixels *)

Lemma claim_writable (fid : string) (w : World) :
  write_error (grid_json (disk w)) = None →
  write_error (user_pixels_json (disk w)) = None →
  write_error (grid_json (disk (claim fid w).2)) = None ∧
  write_error (user_pixels_json (disk (claim fid w).2)) = None ∧
  ∀ code, (claim fid w).1 ≠ Throw (SystemError code).
Proof.
  intros Hg Hu. rewrite claim_cases.
  pose proof (scan_spec fid (grid w)) as Hscan.
  destruct (scan fid (grid w)) as [[[p g]|]|e|]; try done.
  - set (w2 := MkWorld g (appended (userPixels w) fid p) (disk w) (trace w)).
    pose proof (saveData_ok w2 Hg Hu) as Hsave.
    destruct (get_property (userPixels w) fid); try done;
      cbv zeta; fold w2; by rewrite Hsave.
  - destruct Hscan as [-> _]. done.
Qed.

Lemma run_index (fid : string) (fids : list string) (w : World) :
  write_error (grid_json (disk w)) = None →
  write_error (user_pixels_json (disk w)) = None →
  default [] (userPixels (run fids w).2 !! fid)
  = default [] (userPixels w !! fid) ++ granted_to fid fids (run fids w).1.
Proof.
  revert w. induction fids as [|f fids IH]; intros w Hg Hu.
  { simpl. by rewrite app_nil_r. }
  rewrite run_cons. simpl.
  destruct (claim_writable f w Hg Hu) as (Hg' & Hu' & Hnosys).
  rewrite (IH _ Hg' Hu'). rewrite app_assoc. f_equal.
  pose proof (claim_is_step f w) as Hstep. clear Hg' Hu' IH.
  revert Hnosys Hstep.
  generalize (claim f w).1 (claim f w).2. intros r w' Hnosys Hstep.
  destruct Hstep as [Hfull| |p Hff Hnone Hin|p r w' Hff _ _ Hindex Hr'].
  - by rewrite app_nil_r.
  - by rewrite app_nil_r.
  - by rewrite app_nil_r.
  - destruct Hr' as [->|[code ->]]; [|by destruct (Hnosys code)].
    rewrite Hindex. unfold appended.
    destruct (bool_decide_reflect (f = fid)) as [->|Hne].
    + by rewrite lookup_insert_eq.
    + rewrite lookup_insert_ne by done. by rewrite app_nil_r.
Qed.

(** On a disk whose two files can be written, after any sequence of claims
    from the empty state the query for an owner name that
    [Object.prototype] does not define answers exactly the coordinates that
    were returned to that owner, in the order they were claimed, whoever
    else claimed in between. *)
Theorem user_pixels_lists_grants (d : Disk) (fids : list string)
    (fid : string) :
  write_error (grid_json d) = None →
  write_error (user_pixels_json d) = None →
  fid ∉ Object_prototype_keys →
  get_user_pixels fid (run fids (initial_world d)).2
  = Own (granted_to fid fids (run fids (initial_world d)).1).
Proof.
  intros Hg Hu Hplain.
  pose proof (run_index fid fids (initial_world d) Hg Hu) as Hindex.
  simpl in Hindex. rewrite lookup_empty in Hindex. simpl in Hindex.
  rewrite <- Hindex. unfold get_user_pixels, get_property.
  destruct (userPixels (run fids (initial_world d)).2 !! fid); [done|].
  by rewrite bool_decide_eq_false_2.
Qed.

Lemma user_pixels_lists_grants_witness :
  get_user_pixels "42" (run ["42"; "7"; "42"] (initial_world empty_disk)).2
  = Own (granted_to "42" ["42"; "7"; "42"]
           (run ["42"; "7"; "42"] (initial_world empty_disk)).1) ∧
  granted_to "42" ["42"; "7"; "42"]
    (run ["42"; "7"; "42"] (initial_world empty_disk)).1
  = [Pos 0 0; Pos 20 0].
Proof.
  split; [|vm_compute; reflexivity].
  apply (user_pixels_lists_grants empty_disk); [reflexivity | reflexivity |].
  apply (bool_decide_unpack _). vm_compute. exact I.
Defined.

(** The query for an owner name that [Object.prototype] defines never
    answers a list of pixels: after any sequence of claims from the empty
    state the name is still resolved in the prototype. *)
Theorem inherited_name_is_never_listed (d : Disk) (fids : list string)
    (fid : string) :
  fid ∈ Object_prototype_keys →
  get_user_pixels fid (run fids (initial_world d)).2 = Inherited.
Proof.
  intros Hin.
  assert (userPixels (run fids (initial_world d)).2 !! fid = None) as Hnone.
  { assert (userPixels (initial_world d) !! fid = None) as Hinit
      by apply lookup_empty.
    revert Hinit. generalize (initial_world d).
    induction fids as [|f fids IH]; intros w Hw; [done|].
    rewrite run_cons. simpl. apply IH.
    pose proof (claim_is_step f w) as Hstep. clear IH. revert Hstep.
    generalize (claim f w).1 (claim f w).2. intros r w' Hstep.
    destruct Hstep as [| |p Hff Hf Hkey|p r w' Hff Hown _ Hindex];
      try done.
    rewrite Hindex. unfold appended.
    destruct (decide (f = fid)) as [->|Hne]; [by destruct (Hown Hw)|].
    by rewrite lookup_insert_ne. }
  unfold get_user_pixels, get_property. rewrite Hnone.
  by rewrite bool_decide_eq_true_2.
Qed.

Lemma inherited_name_is_never_listed_witness :
  "toString" ∈ Object_prototype_keys ∧
  get_user_pixels "toString"
    (run ["42"; "toString"; "7"] (initial_world empty_disk)).2 = Inherited.
Proof.
  assert ("toString" ∈ Object_prototype_keys) as Hin
    by (apply (bool_decide_unpack _); vm_compute; exact I).
  split; [exact Hin|].
  exact (inherited_name_is_never_listed empty_disk _ "toString" Hin).
Defined.

(** ** Restarting after a claim *)

Lemma claim_returns_saved (fid : string) (w : World) (p : pos) :
  (claim fid w).1 = Ret (Some p) →
  write_error (grid_json (disk w)) = None ∧
  write_error (user_pixels_json (disk w)) = None ∧
  (claim fid w).2
  = (saveData (MkWorld (mark (grid w) p fid) (appended (userPixels w) fid p)
                 (disk w) (trace w))).2.
Proof.
  intros Hr. pose proof Hr as (Hff & _)%claim_returns. revert Hr.
  rewrite claim_cases. pose proof (scan_spec fid (grid w)) as Hscan.
  destruct (scan fid (grid w)) as [[[q g]|]|e|]; try done.
  destruct Hscan as (_ & _ & _ & _ & _ & _ & ->). fold (mark (grid w) q fid).
  set (w2 := MkWorld (mark (grid w) q fid) (appended (userPixels w) fid q)
               (disk w) (trace w)).
  assert ((saveData w2).1 = Ret () →
          write_error (grid_json (disk w)) = None ∧
          write_error (user_pixels_json (disk w)) = None) as Hsave.
  { destruct (write_error (grid_json (disk w))) as [c|] eqn:Hg.
    { by rewrite (saveData_grid_error w2 c Hg). }
    destruct (write_error (user_pixels_json (disk w))) as [c|] eqn:Hu.
    { by rewrite (saveData_user_error w2 c Hg Hu). }
    done. }
  destruct (get_property (userPixels w) fid); try done;
    cbv zeta; fold w2; simpl; intros Hr;
    (assert ((saveData w2).1 = Ret ()) as Hok
       by (revert Hr; generalize (saveData w2).1;
           intros [[]|e0|] Hr; by simplify_eq));
    (assert (q = p) as ->
       by (revert Hr; generalize (saveData w2).1;
           intros [[]|e0|] Hr; by simplify_eq));
    destruct (Hsave Hok); done.
Qed.

(** A claim that returned a coordinate survives a restart: for every
    reachable state, a process started afterwards on the same disk, with
    both files readable, holds the grid and the index that the claiming
    process held when it answered. *)
Theorem claim_survives_restart (fid : string) (w : World) (p : pos) :
  reachable w →
  (claim fid w).1 = Ret (Some p) →
  read_error (grid_json (disk w)) = None →
  read_error (user_pixels_json (disk w)) = None →
  grid (restarted (disk (claim fid w).2)) = grid (claim fid w).2 ∧
  userPixels (restarted (disk (claim fid w).2)) = userPixels (claim fid w).2.
Proof.
  intros Hreach Hr Hrg Hru.
  pose proof Hr as (Hff & _)%claim_returns.
  destruct (claim_returns_saved fid w p Hr) as (Hwg & Hwu & ->).
  rewrite (saveData_ok (MkWorld (mark (grid w) p fid)
                          (appended (userPixels w) fid p) (disk w) (trace w))
             Hwg Hwu). simpl.
  rewrite JSON_stringify_grid_solid
    by (apply solid_mark; [by apply reachable_solid | done]).
  unfold restarted. rewrite startup_unfold.
  rewrite (loadData_both _ (mark (grid w) p fid)
             (appended (userPixels w) fid p));
    [done | by unfold fs_readFile; simpl; rewrite ?Hrg, ?Hru..].
Qed.

Lemma claim_survives_restart_witness :
  let w := initial_world empty_disk in
  reachable w ∧
  (claim "42" w).1 = Ret (Some (Pos 0 0)) ∧
  grid (restarted (disk (claim "42" w).2)) = grid (claim "42" w).2 ∧
  userPixels (restarted (disk (claim "42" w).2)) = userPixels (claim "42" w).2.
Proof.
  assert (reachable (initial_world empty_disk)) as Hreach
    by (exists empty_disk, []; reflexivity).
  assert ((claim "42" (initial_world empty_disk)).1 = Ret (Some (Pos 0 0)))
    as Hr by (vm_compute; reflexivity).
  split; [exact Hreach|]. split; [exact Hr|].
  exact (claim_survives_restart "42" _ (Pos 0 0) Hreach Hr eq_refl eq_refl).
Defined.

(** What a restart loads after a save that wrote [grid.json] only. *)
Lemma torn_snapshot_state (fid : string) (w : World) (p : pos)
    (code : string) :
  reachable w →
  (scan_grid fid w).1 = Ret (Some p) →
  get_property (userPixels w) fid ≠ Inherited →
  write_error (grid_json (disk w)) = None →
  write_error (user_pixels_json (disk w)) = Some code →
  read_error (grid_json (disk w)) = None →
  read_error (user_pixels_json (disk w)) = None →
  (claim fid w).1 = Throw (SystemError code) ∧
  grid_get (grid (restarted (disk (claim fid w).2))) (pos_y p) (pos_x p)
  = Ret (Obj fid) ∧
  userPixels (restarted (disk (claim fid w).2))
  = match content (user_pixels_json (disk w)) with
    | Some (Json u) => u
    | _ => ∅
    end.
Proof.
  intros Hreach [Hff Hscan]%scan_grid_returns Hown Hwg Hwu Hrg Hru.
  rewrite claim_cases, Hscan.
  set (w2 := MkWorld (mark (grid w) p fid) (appended (userPixels w) fid p)
               (disk w) (trace w)).
  pose proof (saveData_user_error w2 code Hwg Hwu) as Hsave.
  assert (JSON_stringify_grid (grid w2) = Json (mark (grid w) p fid))
    as Hjson by (apply JSON_stringify_grid_solid, solid_mark;
                 [by apply reachable_solid | done]).
  rewrite Hjson in Hsave.
  destruct (get_property (userPixels w) fid) eqn:Hprop; try done;
    cbv zeta; fold w2; rewrite Hsave; simpl; (split; [done|]);
    unfold restarted; rewrite startup_unfold;
    (destruct (content (user_pixels_json (disk w))) as [[u|]|] eqn:Hcontent;
     [rewrite (loadData_both _ (mark (grid w) p fid) u)
        by (unfold fs_readFile; simpl; by rewrite ?Hrg, ?Hru, ?Hcontent)
     |rewrite (loadData_user_failure _ (mark (grid w) p fid) SyntaxError)
        by (unfold fs_readFile, mbind, res_bind; simpl;
            by rewrite ?Hrg, ?Hru, ?Hcontent)
     |rewrite (loadData_user_failure _ (mark (grid w) p fid)
                 (SystemError "ENOENT"))
        by (unfold fs_readFile, mbind, res_bind; simpl;
            by rewrite ?Hrg, ?Hru, ?Hcontent)]);
    simpl; (split; [by apply grid_get_mark_eq | done]).
Qed.

(** The two files are written one after the other, with nothing that ties
    them.  When [grid.json] is written and the write of [user_pixels.json]
    fails, the claim throws, and a process started afterwards on that disk
    loads the claimed cell in its grid together with the index that
    [user_pixels.json] held before the claim (the empty index when that
    file is missing or is not JSON).  Unless that file already listed the
    cell under the owner, the restarted process holds a claimed cell that
    its index does not list: its index does not match its grid. *)
Theorem torn_snapshot (fid : string) (w : World) (p : pos) (code : string) :
  reachable w →
  (scan_grid fid w).1 = Ret (Some p) →
  get_property (userPixels w) fid ≠ Inherited →
  write_error (grid_json (disk w)) = None →
  write_error (user_pixels_json (disk w)) = Some code →
  read_error (grid_json (disk w)) = None →
  read_error (user_pixels_json (disk w)) = None →
  (claim fid w).1 = Throw (SystemError code) ∧
  grid_get (grid (restarted (disk (claim fid w).2))) (pos_y p) (pos_x p)
  = Ret (Obj fid) ∧
  userPixels (restarted (disk (claim fid w).2))
  = match content (user_pixels_json (disk w)) with
    | Some (Json u) => u
    | _ => ∅
    end ∧
  (p ∉ default [] (match content (user_pixels_json (disk w)) with
                   | Some (Json u) => u
                   | _ => ∅
                   end !! fid) →
   ¬ index_matches_grid (restarted (disk (claim fid w).2))).
Proof.
  intros Hreach Hscan Hown Hwg Hwu Hrg Hru.
  destruct (torn_snapshot_state fid w p code Hreach Hscan Hown Hwg Hwu Hrg Hru)
    as (Hthrow & Hcell & Hindex).
  split; [done|]. split; [done|]. split; [done|].
  intros Hunlisted [_ Hlisted].
  destruct (Hlisted _ _ _ Hcell) as (pixels & Hlookup & Hin).
  apply Hunlisted. rewrite <- Hindex, Hlookup. by destruct p.
Qed.

Lemma torn_snapshot_witness :
  let w := initial_world index_readonly_disk in
  (claim "42" w).1 = Throw (SystemError "EACCES") ∧
  grid_get (grid (restarted (disk (claim "42" w).2))) 0 0 = Ret (Obj "42") ∧
  userPixels (restarted (disk (claim "42" w).2)) = ∅ ∧
  ¬ index_matches_grid (restarted (disk (claim "42" w).2)).
Proof.
  assert (reachable (initial_world index_readonly_disk)) as Hreach
    by (exists index_readonly_disk, []; reflexivity).
  assert ((scan_grid "42" (initial_world index_readonly_disk)).1
          = Ret (Some (Pos 0 0))) as Hscan by (vm_compute; reflexivity).
  assert (get_property (userPixels (initial_world index_readonly_disk)) "42"
          ≠ Inherited) as Hown by (vm_compute; discriminate).
  destruct (torn_snapshot "42" (initial_world index_readonly_disk) (Pos 0 0)
              "EACCES" Hreach Hscan Hown eq_refl eq_refl eq_refl eq_refl)
    as (Hthrow & Hcell & Hindex & Horphan).
  split; [exact Hthrow|]. split; [exact Hcell|]. split; [exact Hindex|].
  apply Horphan. simpl. apply not_elem_of_nil.
Defined.

(** A snapshot that could not be loaded is replaced at the next claim.
    When [grid.json] cannot be read or parsed the process starts on the
    empty state, without reading [user_pixels.json]; the first claim is
    then granted the cell (0, 0), and its save writes over both files a
    grid with that one cell and an index with that one entry, whatever the
    files held before. *)
Theorem unreadable_grid_is_overwritten (d : Disk) (fid : string) (e : exn) :
  (fs_readFile (grid_json d) ≫= JSON_parse) = Throw e →
  write_error (grid_json d) = None →
  write_error (user_pixels_json d) = None →
  fid ∉ Object_prototype_keys →
  (claim fid (restarted d)).1 = Ret (Some (Pos 0 0)) ∧
  content (grid_json (disk (claim fid (restarted d)).2))
  = Some (Json (mark fresh_grid (Pos 0 0) fid)) ∧
  content (user_pixels_json (disk (claim fid (restarted d)).2))
  = Some (Json {[ fid := [Pos 0 0] ]}).
Proof.
  intros Hread Hwg Hwu Hplain.
  assert (∃ t, restarted d = MkWorld fresh_grid ∅ d t) as [t ->].
  { unfold restarted. rewrite startup_unfold.
    rewrite (loadData_grid_failure (initial_world d) e Hread). by eexists. }
  set (w := MkWorld fresh_grid ∅ d t).
  destruct (claim_succeeds fid w 0) as (Hclaim & _);
    [arith | apply filled_fresh | exact (length_replicate _ _)
    | done | done | done |].
  change (nth_coordinate 0) with (Pos 0 0) in Hclaim.
  split; [done|].
  pose proof (claim_returns fid w _ Hclaim) as (Hff & _).
  destruct (claim_returns_saved fid w _ Hclaim) as (_ & _ & ->).
  rewrite (saveData_ok (MkWorld (mark (grid w) (Pos 0 0) fid)
                          (appended (userPixels w) fid (Pos 0 0)) (disk w)
                          (trace w)) Hwg Hwu).
  subst w. cbn [snd disk grid_json user_pixels_json content grid userPixels] in *.
  rewrite JSON_stringify_grid_solid
    by (apply solid_mark; [apply solid_fresh | done]).
  split; [reflexivity|]. unfold JSON_stringify_userPixels, appended.
  by rewrite lookup_empty.
Qed.

Lemma unreadable_grid_is_overwritten_witness :
  content (user_pixels_json corrupt_grid_disk)
  = Some (Json {[ "7" := [Pos 0 0] ]}) ∧
  (claim "42" (restarted corrupt_grid_disk)).1 = Ret (Some (Pos 0 0)) ∧
  content (user_pixels_json (disk (claim "42" (restarted corrupt_grid_disk)).2))
  = Some (Json {[ "42" := [Pos 0 0] ]}).
Proof.
  split; [reflexivity|].
  assert ("42" ∉ Object_prototype_keys) as Hplain
    by (apply (bool_decide_unpack _); vm_compute; exact I).
  pose proof (unreadable_grid_is_overwritten corrupt_grid_disk "42"
                SyntaxError eq_refl eq_refl eq_refl Hplain) as (H1 & _ & H3).
  split; [exact H1 | exact H3].
Defined.

(** ** The geometry of the rendered image *)

Lemma elem_of_scan_pixels (width x y w h px py idx : Z) :
  (px, py, idx) ∈ scan_pixels width (Num x) (Num y) w h ↔
  y ≤ py < y + h ∧ x ≤ px < x + w ∧ idx = shl2 (width * py + px).
Proof.
  unfold scan_pixels. rewrite list_elem_of_bind. split.
  - intros (_y & Hin & Hy%elem_of_seqZ).
    apply list_elem_of_bind in Hin as (_x & Hin & Hx%elem_of_seqZ).
    apply list_elem_of_singleton in Hin. simplify_eq. done.
  - intros (Hy & Hx & ->). exists py. split; [|by apply elem_of_seqZ].
    apply list_elem_of_bind. exists px. split; [|by apply elem_of_seqZ].
    by apply list_elem_of_singleton.
Qed.

Lemma shl2_small (v : Z) : 0 ≤ v < 2 ^ 29 → shl2 v = 4 * v.
Proof.
  intros Hv. unfold shl2. rewrite Z.shiftl_mul_pow2 by lia.
  change (2 ^ 2) with 4. change (2 ^ 29) with 536870912 in Hv.
  change (2 ^ 31) with 2147483648. change (2 ^ 32) with 4294967296.
  Z.div_mod_to_equations. lia.
Qed.

Lemma elem_of_tile_pixels (p : pos) (px py idx : Z) :
  on_lattice p →
  (px, py, idx) ∈ tile_pixels p ↔
  scaledTokenSize * (pos_x p / TOKEN_SIZE) ≤ px
    < scaledTokenSize * (pos_x p / TOKEN_SIZE) + scaledTokenSize ∧
  scaledTokenSize * (pos_y p / TOKEN_SIZE) ≤ py
    < scaledTokenSize * (pos_y p / TOKEN_SIZE) + scaledTokenSize ∧
  idx = 4 * (WIDTH * py + px).
Proof.
  intros (Hx & Hxm & Hy & Hym). unfold tile_pixels, scale.
  rewrite elem_of_scan_pixels.
  change scaledTokenSize with 12. unfold WIDTH.
  assert (pos_x p * 1200 / GRID_SIZE = 12 * (pos_x p / TOKEN_SIZE)) as ->
    by (consts; Z.div_mod_to_equations; lia).
  assert (pos_y p * 1200 / GRID_SIZE = 12 * (pos_y p / TOKEN_SIZE)) as ->
    by (consts; Z.div_mod_to_equations; lia).
  assert (0 ≤ pos_x p / TOKEN_SIZE < 100 ∧ 0 ≤ pos_y p / TOKEN_SIZE < 100)
    as [Ha Hb] by (consts; Z.div_mod_to_equations; lia).
  split.
  - intros (Hpy & Hpx & ->). rewrite shl2_small by (change (2 ^ 29) with 536870912; lia).
    done.
  - intros (Hpx & Hpy & ->). rewrite shl2_small by (change (2 ^ 29) with 536870912; lia).
    done.
Qed.

(** The tiles partition the scaled canvas: a pixel is visited for the tile
    of exactly one lattice cell, the one at
    [(floor(px / 12) * 10, floor(py / 12) * 10)], and the offset written
    for it is that of the pixel in a bitmap [WIDTH] pixels wide.  No tile
    overwrites a pixel of another. *)
Theorem pixel_in_one_tile (p : pos) (px py : Z) :
  on_lattice p →
  ((∃ idx, (px, py, idx) ∈ tile_pixels p) ↔
   p = Pos (px / scaledTokenSize * TOKEN_SIZE)
         (py / scaledTokenSize * TOKEN_SIZE)) ∧
  (∀ idx, (px, py, idx) ∈ tile_pixels p → idx = 4 * (WIDTH * py + px)).
Proof.
  intros Hp. pose proof Hp as (Hx & Hxm & Hy & Hym). split.
  - split.
    + intros [idx (Hpx & Hpy & _)%elem_of_tile_pixels]; [|done].
      destruct p as [x y]. simpl in *. change scaledTokenSize with 12 in *.
      f_equal; consts; Z.div_mod_to_equations; lia.
    + intros Heq. exists (4 * (WIDTH * py + px)).
      apply elem_of_tile_pixels; [done|]. rewrite Heq in *. simpl in *.
      change scaledTokenSize with 12 in *.
      repeat split; consts; Z.div_mod_to_equations; lia.
  - by intros idx (_ & _ & ->)%elem_of_tile_pixels.
Qed.

Lemma pixel_in_one_tile_witness :
  on_lattice (Pos 30 520) ∧
  ((∃ idx, (40, 630, idx) ∈ tile_pixels (Pos 30 520)) ↔
   Pos 30 520 = Pos (40 / scaledTokenSize * TOKEN_SIZE)
                  (630 / scaledTokenSize * TOKEN_SIZE)).
Proof.
  assert (on_lattice (Pos 30 520)) as Hp
    by (unfold on_lattice; simpl; consts; repeat split; lia).
  split; [exact Hp|]. exact (proj1 (pixel_in_one_tile (Pos 30 520) 40 630 Hp)).
Defined.

(** The canvas of 1000 x 1000 cells is scaled by 1.2 to 1200 x 1200 pixels,
    the bitmap has [HEIGHT] = 630 rows.  The tiles of the cells of the rows
    up to [y] = 510 lie within the bitmap; the tiles of the rows from
    [y] = 530 on lie below it: every pixel visited for them is at a row
    from [HEIGHT] on and at an offset from the length of the bitmap on. *)
Theorem tile_rows_on_bitmap (p : pos) :
  on_lattice p →
  (pos_y p ≤ 510 →
   ∀ px py idx, (px, py, idx) ∈ tile_pixels p →
     0 ≤ px < WIDTH ∧ 0 ≤ py < HEIGHT ∧ 0 ≤ idx ∧ idx + 4 ≤ BITMAP_BYTES) ∧
  (530 ≤ pos_y p →
   ∀ px py idx, (px, py, idx) ∈ tile_pixels p →
     HEIGHT ≤ py ∧ BITMAP_BYTES ≤ idx).
Proof.
  intros Hp. pose proof Hp as (Hx & Hxm & Hy & Hym).
  split; intros Hrow px py idx (Hpx & Hpy & ->)%elem_of_tile_pixels;
    try done; change scaledTokenSize with 12 in *;
    unfold BITMAP_BYTES, WIDTH, HEIGHT; consts;
    repeat split; Z.div_mod_to_equations; lia.
Qed.

Lemma tile_rows_on_bitmap_witness :
  on_lattice (Pos 0 530) ∧
  ∀ px py idx, (px, py, idx) ∈ tile_pixels (Pos 0 530) →
    HEIGHT ≤ py ∧ BITMAP_BYTES ≤ idx.
Proof.
  assert (on_lattice (Pos 0 530)) as Hp
    by (unfold on_lattice; simpl; consts; repeat split; lia).
  split; [exact Hp|].
  apply (proj2 (tile_rows_on_bitmap (Pos 0 530) Hp)). simpl. lia.
Defined.

(** ** Rendering and the handlers *)

Lemma for_loop_ext {S} (fuel : nat) (i stop step : Z)
    (body body' : Z → S → res S) (s : S) :
  0 < step →
  (∀ j s, i ≤ j < stop → (j - i) mod step = 0 → body j s = body' j s) →
  for_loop fuel i stop step body s = for_loop fuel i stop step body' s.
Proof.
  intros Hstep. revert i s.
  induction fuel as [|fuel IH]; intros i s Hbody; [done|].
  simpl. destruct (bool_decide_reflect (i < stop)); [|done].
  rewrite Hbody by first [lia | by rewrite Z.sub_diag].
  destruct (body' i s) as [s'| |]; simpl; [|done..].
  apply IH. intros j s'' Hj Hmod. apply Hbody; [lia|].
  replace (j - i) with (j - (i + step) + 1 * step) by lia.
  by rewrite Z_mod_plus_full.
Qed.

Lemma for_loop_inv {S} (P : S → Prop) (fuel : nat) (i stop step : Z)
    (body : Z → S → res S) (s s' : S) :
  (∀ j s s', P s → body j s = Ret s' → P s') →
  P s → for_loop fuel i stop step body s = Ret s' → P s'.
Proof.
  intros Hbody. revert i s.
  induction fuel as [|fuel IH]; intros i s Hs Hret; [done|].
  simpl in Hret. destruct (bool_decide_reflect (i < stop)); [|by simplify_eq].
  destruct (body i s) as [s1| |] eqn:Hi; simpl in Hret; [|done..].
  apply (IH (i + step) s1); [by eapply Hbody | done].
Qed.

Lemma for_loop_ret {S} (P : S → Prop) (fuel : nat) (i stop step : Z)
    (body : Z → S → res S) (s s' : S) (j : Z) :
  0 < step →
  (∀ j s s', P s → body j s = Ret s' → P s') →
  P s →
  for_loop fuel i stop step body s = Ret s' →
  i ≤ j < stop → (j - i) mod step = 0 →
  ∃ s1 s2, P s1 ∧ body j s1 = Ret s2.
Proof.
  intros Hstep Hinv. revert i s.
  induction fuel as [|fuel IH]; intros i s Hs Hret Hj Hmod; [done|].
  simpl in Hret. destruct (bool_decide_reflect (i < stop)); [|lia].
  destruct (body i s) as [s1| |] eqn:Hbody; simpl in Hret; [|done..].
  destruct (decide (j = i)) as [->|Hne]; [by eauto|].
  assert (i + step ≤ j).
  { pose proof Hmod as [q Hq]%Z.mod_divide; [|lia].
    assert (1 ≤ q) by nia. nia. }
  apply (IH (i + step) s1); [by eapply Hinv | done | lia |].
  replace (j - (i + step)) with (j - i + -1 * step) by lia.
  by rewrite Z_mod_plus_full.
Qed.

Lemma fold_res_ret {A B} (f : A → B → res A) (a a' : A) (l : list B) (b : B) :
  fold_res f a l = Ret a' → b ∈ l → ∃ a1 a2, f a1 b = Ret a2.
Proof.
  revert a. induction l as [|c l IH]; intros a Hret Hin.
  { by apply elem_of_nil in Hin. }
  simpl in Hret. destruct (f a c) as [a1| |] eqn:Hf; simpl in Hret; [|done..].
  apply elem_of_cons in Hin as [->|Hin]; [by eauto|]. by apply (IH a1).
Qed.

Lemma scanQuiet_width `{Lib} (img img' : image buffer) (x y : num) (w h : Z)
    (f : buffer → Z → Z → Z → res buffer) :
  scanQuiet img x y w h f = Ret img' → bitmap_width img' = bitmap_width img.
Proof.
  unfold scanQuiet. destruct (fold_res _ _ _); simpl; [|done..].
  by intros [= <-].
Qed.

(** The tile of the cell (0, 520) reaches the pixel row 630, the first one
    past the bitmap: no render passes it when the buffer checks bounds. *)
Lemma paint_tiles_bounds_checked `{Lib} (g : Grid) (img img' : image buffer) :
  bounds_checked → bitmap_width img = WIDTH → paint_tiles g img ≠ Ret img'.
Proof.
  intros Hchecked Hwidth Hret. unfold paint_tiles in Hret.
  assert (∀ y x (s s' : image buffer),
            bitmap_width s = WIDTH →
            (c ← grid_get g y x;
             scanQuiet s (scale (JNumber x)) (scale (JNumber y))
               scaledTokenSize scaledTokenSize
               (λ data _ _ idx,
                  call (writeUInt32BE data
                          (generatePixelColor x y
                             (if c is Null then false else true)) idx)))
            = Ret s' →
            bitmap_width s' = WIDTH) as Htile_width.
  { intros y x s s' Hs. destruct (grid_get g y x); simpl; [|done..].
    intros Hscan%scanQuiet_width. congruence. }
  apply (for_loop_ret (λ s, bitmap_width s = WIDTH) _ _ _ _ _ _ _ 520)
    in Hret as (s1 & s2 & Hs1 & Hrow); [|arith| |done|arith|done].
  2:{ intros y s s' Hs.
      apply (for_loop_inv (λ s, bitmap_width s = WIDTH));
        [apply Htile_width | done]. }
  apply (for_loop_ret (λ s, bitmap_width s = WIDTH) _ _ _ _ _ _ _ 0)
    in Hrow as (s3 & s4 & Hs3 & Htile);
    [|arith|apply Htile_width|done|arith|done].
  destruct (grid_get g 520 0) as [c| |]; simpl in Htile; [|done..].
  unfold scanQuiet in Htile. rewrite Hs3 in Htile.
  change (scan_pixels WIDTH _ _ _ _) with (tile_pixels (Pos 0 520)) in Htile.
  destruct (fold_res _ _ _) as [data| |] eqn:Hfold; simpl in Htile; [|done..].
  apply (fold_res_ret _ _ _ _ (0, 630, 4 * (WIDTH * 630 + 0))) in Hfold
    as (d1 & d2 & Hwrite).
  - destruct (Hchecked d1
                (generatePixelColor 0 520 (if c is Null then false else true))
                (4 * (WIDTH * 630 + 0))) as [e He]; [done|].
    simpl in Hwrite. by rewrite He in Hwrite.
  - apply elem_of_tile_pixels.
    + unfold on_lattice; simpl; consts; repeat split; lia.
    + simpl. done.
Qed.

Lemma generateImage_bounds_checked `{Lib} (g : Grid)
    (newPixelX newPixelY : jsarg) :
  bounds_checked → ∃ e, generateImage g newPixelX newPixelY = Throw e.
Proof.
  intros Hchecked.
  pose proof (generateImage_fuel g newPixelX newPixelY) as Hfuel.
  unfold generateImage in *.
  destruct (paint_tiles g _) as [img'|e|] eqn:Hpaint.
  - by apply paint_tiles_bounds_checked in Hpaint.
  - by exists e.
  - done.
Qed.

Lemma strict_lib_bounds_checked : @bounds_checked strict_lib.
Proof.
  intros data value offset Hoffset. exists RangeError. simpl.
  rewrite bool_decide_eq_false_2; [done|]. unfold BITMAP_BYTES in *. lia.
Qed.

(** GET /frame-image never throws and never changes the grid, the index or
    the files: it answers 200 with the PNG of a render without highlight,
    or, when the render throws, logs the error and answers 500. *)
Theorem frame_image_always_answers `{Lib} (w : World) :
  (∃ png, generateImage (grid w) JNull JNull = Ret png ∧
     get_frame_image w = (Ret (Response 200 (Png png)), w)) ∨
  (∃ e, generateImage (grid w) JNull JNull = Throw e ∧
     get_frame_image w
     = (Ret (Response 500 (Plain "Error generating image")),
        MkWorld (grid w) (userPixels w) (disk w)
          (trace w ++ [ConsoleError e]))).
Proof.
  pose proof (generateImage_fuel (grid w) JNull JNull) as Hfuel.
  unfold get_frame_image, try_catch, bind, lift, emit, ret.
  destruct (generateImage (grid w) JNull JNull) as [png|e|]; [|by eauto|done].
  left. exists png. by destruct w.
Qed.

(** A render that throws after a claim was made does not undo the claim:
    the request ends with the error of the render, and the state is the
    one the claim left: the cell belongs to the owner, it is listed in the
    index, and both files hold that state. *)
Theorem render_failure_keeps_claim `{Lib} (messageBytes fid : string)
    (w : World) (p : pos) (e : exn) :
  (verifyFarcasterMessage messageBytes w).1 = Ret true →
  (claim fid w).1 = Ret (Some p) →
  generateImage (grid (claim fid w).2) (JNumber (pos_x p)) (JNumber (pos_y p))
  = Throw e →
  post_api_frame messageBytes fid w = (Throw e, (claim fid w).2) ∧
  grid_get (grid (claim fid w).2) (pos_y p) (pos_x p) = Ret (Obj fid) ∧
  p ∈ default [] (userPixels (claim fid w).2 !! fid) ∧
  content (grid_json (disk (claim fid w).2))
  = Some (JSON_stringify_grid (grid (claim fid w).2)) ∧
  content (user_pixels_json (disk (claim fid w).2))
  = Some (JSON_stringify_userPixels (userPixels (claim fid w).2)).
Proof.
  intros Hvalid%verifyFarcasterMessage_true Hclaim Hrender. split.
  - rewrite (post_api_frame_valid _ _ _ Hvalid).
    destruct (claim fid w) as [r w'] eqn:Hc. simpl in *. subst r.
    simpl. by rewrite Hrender.
  - pose proof (claim_returns fid w p Hclaim) as (Hff & Hgrid & Hindex).
    destruct (claim_returns_saved fid w p Hclaim) as (Hwg & Hwu & Hsaved).
    split; [rewrite Hgrid; by apply grid_get_mark_eq|].
    split.
    { rewrite Hindex. unfold appended. rewrite lookup_insert_eq. simpl.
      apply elem_of_app. right. by apply list_elem_of_singleton. }
    rewrite Hsaved.
    by rewrite (saveData_ok (MkWorld (mark (grid w) p fid)
                               (appended (userPixels w) fid p) (disk w)
                               (trace w)) Hwg Hwu).
Qed.

Lemma render_failure_keeps_claim_witness :
  ∃ e,
    @post_api_frame strict_lib "valid" "42" (initial_world empty_disk)
    = (Throw e, (claim "42" (initial_world empty_disk)).2).
Proof.
  destruct (@generateImage_bounds_checked strict_lib
              (grid (claim "42" (initial_world empty_disk)).2)
              (JNumber 0) (JNumber 0) strict_lib_bounds_checked) as [e He].
  exists e.
  assert ((claim "42" (initial_world empty_disk)).1 = Ret (Some (Pos 0 0)))
    as Hclaim by (vm_compute; reflexivity).
  exact (proj1 (@render_failure_keeps_claim strict_lib "valid" "42"
                  (initial_world empty_disk) (Pos 0 0) e eq_refl Hclaim He)).
Defined.

(** With a buffer that checks the bounds of a write, no render succeeds,
    whatever the grid: GET /frame-image answers 500 in every state, and
    POST /api/frame with a valid message throws in every state. *)
Theorem bounds_checked_buffer_fails_every_render `{Lib} (w : World) :
  bounds_checked →
  (∃ e, get_frame_image w
        = (Ret (Response 500 (Plain "Error generating image")),
           MkWorld (grid w) (userPixels w) (disk w)
             (trace w ++ [ConsoleError e]))) ∧
  (∀ messageBytes fid,
     (verifyFarcasterMessage messageBytes w).1 = Ret true →
     ∃ e, (post_api_frame messageBytes fid w).1 = Throw e).
Proof.
  intros Hchecked. split.
  - destruct (generateImage_bounds_checked (grid w) JNull JNull Hchecked)
      as [e He].
    exists e. unfold get_frame_image, try_catch, bind, lift, emit, ret.
    by rewrite He.
  - intros messageBytes fid Hvalid%verifyFarcasterMessage_true.
    rewrite (post_api_frame_valid _ _ _ Hvalid).
    pose proof (claim_fuel fid w) as Hfuel.
    destruct (claim fid w) as [[position|e|] w']; simpl in *;
      [|by eauto|done].
    destruct (generateImage_bounds_checked (grid w') (opt_x position)
                (opt_y position) Hchecked) as [e He].
    exists e. by rewrite He.
Qed.

Lemma bounds_checked_buffer_fails_every_render_witness :
  ∃ e, (@get_frame_image strict_lib (initial_world empty_disk)).1
       = Ret (Response 500 (Plain "Error generating image")) ∧
       trace (@get_frame_image strict_lib (initial_world empty_disk)).2
       = [ConsoleError e].
Proof.
  destruct (proj1 (@bounds_checked_buffer_fails_every_render strict_lib
                     (initial_world empty_disk) strict_lib_bounds_checked))
    as [e He].
  exists e. rewrite He. split; reflexivity.
Defined.

(** A message that the hub does not validate claims nothing: when the hub
    returns anything but [valid], or throws, POST /api/frame answers 400
    and leaves the grid, the index and the files as they are; it logs the
    exception of the hub and nothing else. *)
Theorem unvalidated_message_claims_nothing `{Lib} (messageBytes fid : string)
    (w : World) :
  hub_validateMessage messageBytes ≠ Returns true →
  (post_api_frame messageBytes fid w).1
  = Ret (Response 400 (ErrorJson "Invalid Farcaster signature")) ∧
  grid (post_api_frame messageBytes fid w).2 = grid w ∧
  userPixels (post_api_frame messageBytes fid w).2 = userPixels w ∧
  disk (post_api_frame messageBytes fid w).2 = disk w ∧
  trace (post_api_frame messageBytes fid w).2
  = trace w ++ match hub_validateMessage messageBytes with
               | Throws e => [ConsoleError e]
               | Returns _ => []
               end.
Proof.
  intros Hhub. by rewrite (post_api_frame_invalid _ _ _ Hhub).
Qed.

Lemma unvalidated_message_claims_nothing_witness :
  (@post_api_frame strict_lib "" "42" (initial_world empty_disk)).1
  = Ret (Response 400 (ErrorJson "Invalid Farcaster signature")) ∧
  (@post_api_frame strict_lib "forged" "42" (initial_world empty_disk)).1
  = Ret (Response 400 (ErrorJson "Invalid Farcaster signature")).
Proof.
  split.
  - apply (@unvalidated_message_claims_nothing strict_lib "" "42"
             (initial_world empty_disk)). simpl. discriminate.
  - apply (@unvalidated_message_claims_nothing strict_lib "forged" "42"
             (initial_world empty_disk)). vm_compute. discriminate.
Defined.

(** The image does not show owners: two grids whose lattice cells are
    claimed at the same places render the same image, whoever owns the
    cells and whatever the grids hold off the lattice. *)
Theorem render_ignores_owners `{Lib} (g g' : Grid)
    (newPixelX newPixelY : jsarg) :
  (∀ p, on_lattice p → shade g p = shade g' p) →
  generateImage g newPixelX newPixelY = generateImage g' newPixelX newPixelY.
Proof.
  intros Hshade. unfold generateImage.
  assert (∀ img, paint_tiles g img = paint_tiles g' img) as ->; [|done].
  intros img. unfold paint_tiles.
  apply for_loop_ext; [arith|]. intros y img1 Hy Hymod.
  apply for_loop_ext; [arith|]. intros x img2 Hx Hxmod.
  rewrite Z.sub_0_r in Hymod, Hxmod.
  specialize (Hshade (Pos x y)). unfold shade in Hshade. simpl in Hshade.
  assert (on_lattice (Pos x y)) as Hp by (unfold on_lattice; simpl; done).
  specialize (Hshade Hp).
  destruct (grid_get g y x) as [c|e|], (grid_get g' y x) as [c'|e'|];
    simpl in *; try done.
  - injection Hshade as Hshade. by rewrite Hshade.
  - by injection Hshade as ->.
Qed.

Lemma render_ignores_owners_witness :
  @generateImage constant_lib (mark fresh_grid (Pos 0 0) "42")
    (JNumber 0) (JNumber 0)
  = @generateImage constant_lib (mark fresh_grid (Pos 0 0) "7")
      (JNumber 0) (JNumber 0).
Proof.
  apply (@render_ignores_owners constant_lib). intros [x y] Hp. unfold shade.
  destruct (decide ((y, x) = (0, 0))) as [[= -> ->]|Hne].
  - assert (first_free fresh_grid (Pos 0 0)) as Hff.
    { exists 0. split; [arith|]. split; [done|]. split; [intros; lia|].
      split; [apply fresh_grid_unclaimed | by eexists]. }
    by rewrite !(grid_get_mark_eq fresh_grid (Pos 0 0)).
  - cbn [pos_x pos_y]. by rewrite !grid_get_mark_ne.
Defined.
